(** * fa-wiki: permission-scoped content editing

    A shallow embedding of the permission check ([models.py], [auth.py]),
    the page / block / button store and the two write endpoints ([app.py]),
    with the properties of the editing subsystem proved against it.

    Conventions of the embedding.
    - A Python [str] is a Rocq [string]; a character is the code point of
      the same number, so the embedding covers text in U+0000..U+00FF.
    - A text column that can hold NULL is an [option]; an integer column
      is a [Z] and a boolean column a [bool], every code path filling
      them or leaving them to their default.
    - A table is the list of its rows in storage order; [query.first()]
      is the first row of that list satisfying the filter.
    - [datetime.utcnow()] is read once per request and given to the view
      as [now].
    - A raised exception is an [Err] result; a view that raises answers
      with an internal server error and commits nothing. *)

From Stdlib Require Import String Ascii List ZArith Lia Bool Arith.
From Stdlib Require Import DecimalString DecimalZ DecimalFacts.
From Stdlib Require Import Sorting.Sorted Sorting.Permutation.
Import ListNotations.
Open Scope string_scope.
Open Scope Z_scope.

Set Warnings "-register-all".

(** ** Python string methods used by the source *)

Module PyStr.

(** [s.startswith(p)] *)
Definition startswith (s p : string) : bool := String.prefix p s.

(** [s.endswith(suf)] *)
Definition endswith (s suf : string) : bool :=
  (String.length suf <=? String.length s)%nat
  && String.eqb
       (substring (String.length s - String.length suf) (String.length suf) s)
       suf.

(** [s[:-n]]: all but the last [n] characters (empty when [s] is shorter). *)
Definition drop_last (n : nat) (s : string) : string :=
  substring 0 (String.length s - n) s.

(** [s.replace(a, b)] for one-character [a] and [b]. *)
Fixpoint replace (a b : ascii) (s : string) : string :=
  match s with
  | EmptyString => EmptyString
  | String c s' => String (if Ascii.eqb c a then b else c) (replace a b s')
  end.

(** Case in U+0000..U+00FF, as [str.title()] sees it.  The cased
    characters are the ASCII letters, the letters of U+00C0..U+00FF (the
    multiplication sign U+00D7 and the division sign U+00F7 are not
    letters), the ordinal indicators U+00AA and U+00BA and the micro sign
    U+00B5. *)
Definition between (lo hi : nat) (c : ascii) : bool :=
  let n := nat_of_ascii c in ((lo <=? n) && (n <=? hi))%nat.
Definition is_upper (c : ascii) : bool :=
  between 65 90 c || between 192 214 c || between 216 222 c.
Definition is_lower (c : ascii) : bool :=
  between 97 122 c || between 223 246 c || between 248 255 c
  || between 170 170 c || between 181 181 c || between 186 186 c.
Definition is_cased (c : ascii) : bool := is_upper c || is_lower c.

(** The lower-case mapping of one character. *)
Definition to_lower (c : ascii) : ascii :=
  if is_upper c then ascii_of_nat (nat_of_ascii c + 32) else c.

(** The title-case mapping of one character: the capital letter of a small
    one, two characters for the sharp s (U+00DF), the character itself
    otherwise.  The ordinal indicators have no capital.  The capitals of
    the micro sign and of the y with diaeresis are U+039C and U+0178,
    above the range of the embedding: [title_in_range] tells whether a
    text avoids them. *)
Definition to_title (c : ascii) : string :=
  if between 223 223 c then "Ss"
  else if between 97 122 c || between 224 246 c || between 248 254 c
       then String (ascii_of_nat (nat_of_ascii c - 32)) EmptyString
       else String c EmptyString.

Definition title_above_range (c : ascii) : bool :=
  between 181 181 c || between 255 255 c.

(** [s.title()]: a character that follows a cased character gets its
    lower case, any other character its title case.  [prev_cased] is the
    flag the C implementation threads through the loop. *)
Fixpoint title_from (prev_cased : bool) (s : string) : string :=
  match s with
  | EmptyString => EmptyString
  | String c s' =>
      (if prev_cased then String (to_lower c) EmptyString else to_title c)
      ++ title_from (is_cased c) s'
  end.

(** Whether [s.title()] stays within U+0000..U+00FF: no micro sign and no y
    with diaeresis stands where a title-case letter is due. *)
Fixpoint title_in_range_from (prev_cased : bool) (s : string) : bool :=
  match s with
  | EmptyString => true
  | String c s' =>
      (prev_cased || negb (title_above_range c))
      && title_in_range_from (is_cased c) s'
  end.

Definition title_in_range (s : string) : bool :=
  title_in_range_from false s.

Definition title (s : string) : string := title_from false s.




End PyStr.

(** ** models.py: users and editor permissions *)

Module EditorPermission.
Record t := mk
  { id : Z;
    user_id : Z;
    page_slug : string;
    section_id : option string;
    can_edit : bool }.
End EditorPermission.

Module User.
(** [permissions] is the dynamic relationship: iterating it yields the
    user's [EditorPermission] rows in storage order. *)
Record t := mk
  { id : Z;
    username : string;
    email : string;
    is_active : bool;
    permissions : list EditorPermission.t }.

(** The test guarding both [return perm.can_edit] statements:
    [section_id is None or perm.section_id is None
     or perm.section_id == section_id]. *)
Definition section_ok (section_id : option string)
           (perm : EditorPermission.t) : bool :=
  match section_id, EditorPermission.section_id perm with
  | None, _ => true
  | Some _, None => true
  | Some s, Some ps => String.eqb ps s
  end.

(** One iteration of the loop body of [has_permission]:
    [Some b] is [return b], [None] falls out of the body and the loop
    continues with the next grant. *)
Definition perm_step (perm : EditorPermission.t) (page_slug : string)
           (section_id : option string) : option bool :=
  if String.eqb (EditorPermission.page_slug perm) "*" then Some true
  else
    let by_prefix :=
      if PyStr.endswith (EditorPermission.page_slug perm) "/*" then
        let prefix := PyStr.drop_last 2 (EditorPermission.page_slug perm) in
        if PyStr.startswith page_slug prefix then
          if section_ok section_id perm
          then Some (EditorPermission.can_edit perm) else None
        else None
      else None in
    match by_prefix with
    | Some b => Some b
    | None =>
        if String.eqb (EditorPermission.page_slug perm) page_slug then
          if section_ok section_id perm
          then Some (EditorPermission.can_edit perm) else None
        else None
    end.

Fixpoint has_permission_loop (perms : list EditorPermission.t)
         (page_slug : string) (section_id : option string) : bool :=
  match perms with
  | [] => false
  | perm :: rest =>
      match perm_step perm page_slug section_id with
      | Some b => b
      | None => has_permission_loop rest page_slug section_id
      end
  end.

Definition has_permission (self : t) (page_slug : string)
           (section_id : option string) : bool :=
  has_permission_loop (permissions self) page_slug section_id.
End User.

(** ** auth.py *)

Module Auth.
(** [flask_login.current_user]: the anonymous user or a loaded [User]. *)
Inductive current_user_t :=
| AnonymousUser
| LoggedIn (u : User.t).

(** [AnonymousUserMixin.is_authenticated] is [False];
    [UserMixin.is_authenticated] returns [self.is_active]. *)
Definition is_authenticated (cu : current_user_t) : bool :=
  match cu with
  | AnonymousUser => false
  | LoggedIn u => User.is_active u
  end.

(** The anonymous user has no [has_permission] method; the guard on
    [is_authenticated] keeps the call from it, so the last branch below is
    never taken. *)
Definition can_edit (current_user : current_user_t) (page_slug : string)
           (section_id : option string) : bool :=
  if negb (is_authenticated current_user) then false
  else
    match current_user with
    | LoggedIn u => User.has_permission u page_slug section_id
    | AnonymousUser => false
    end.
End Auth.

(** ** Exceptions and results *)

Module Py.
(** The exceptions the modelled code can raise.  [RecursionError] is what
    the decoder answers when its nesting bound is used up; [loads] sets the
    bound from the length of the text and never uses it up
    ([loads_total]).  [OutsideModel] is not an exception: it marks input
    the embedding does not cover (floating-point literals, escapes above
    U+00FF), and no statement below depends on what the program does
    there. *)
Inductive exn :=
| JSONDecodeError
| TypeError
| AttributeError
| RecursionError
| OutsideModel.

Inductive result (A : Type) :=
| Ok (a : A)
| Err (e : exn).
Arguments Ok {A} a.
Arguments Err {A} e.

Definition bind {A B} (r : result A) (k : A -> result B) : result B :=
  match r with
  | Ok a => k a
  | Err e => Err e
  end.
End Py.

Notation "'let*' x ':=' r 'in' k" :=
  (Py.bind r (fun x => k))
    (at level 10, x pattern, r at level 100, k at level 200).

(** ** The json module, as the models call it: [json.dumps(obj)] and
    [json.loads(text)] with their default options

    The encoder writes [", "] between items and [": "] after a key and
    escapes every character outside printable ASCII ([ensure_ascii]).  The
    decoder is the strict one: whitespace is space, tab, line feed and
    carriage return; a raw control character inside a string is an error;
    a repeated key keeps its first position and its last value.  Numbers
    are integers: a literal with a fraction or an exponent, [NaN] and the
    infinities are answered with [OutsideModel], as is an escape above
    U+00FF. *)

Module Json.
Import Py.

(** The Python values a content document is built from.  A [dict] keeps
    its items in insertion order and its keys are strings. *)
Inductive value :=
| JNull
| JBool (b : bool)
| JInt (z : Z)
| JStr (s : string)
| JList (l : list value)
| JDict (d : list (string * value)).

(** [d[k] = v]: replace the value of an existing key in place, or append. *)
Fixpoint dict_set (k : string) (v : value) (d : list (string * value))
  : list (string * value) :=
  match d with
  | [] => [(k, v)]
  | (k', v') :: d' =>
      if String.eqb k' k then (k', v) :: d'
      else (k', v') :: dict_set k v d'
  end.

(** [d.get(k)] *)
Fixpoint dict_get (k : string) (d : list (string * value)) : option value :=
  match d with
  | [] => None
  | (k', v') :: d' => if String.eqb k' k then Some v' else dict_get k d'
  end.

(** [dict(pairs)] *)
Definition dict_of_pairs (pairs : list (string * value))
  : list (string * value) :=
  fold_left (fun d kv => dict_set (fst kv) (snd kv) d) pairs [].

Definition dquote : ascii := "034"%char.
Definition backslash : ascii := "092"%char.

(** *** Encoder *)

Definition hex_digit (n : nat) : ascii :=
  if (n <? 10)%nat then ascii_of_nat (48 + n) else ascii_of_nat (87 + n).

(** The replacement the encoder makes for one character
    ([ensure_ascii=True]): the short escapes, the character itself when
    it is printable ASCII, and a four-digit [\u] escape otherwise. *)
Definition escape_char (c : ascii) : string :=
  let n := nat_of_ascii c in
  if (n =? 34)%nat then String backslash (String dquote EmptyString)
  else if (n =? 92)%nat then String backslash (String backslash EmptyString)
  else if (n =? 10)%nat then String backslash "n"
  else if (n =? 13)%nat then String backslash "r"
  else if (n =? 9)%nat then String backslash "t"
  else if (n =? 12)%nat then String backslash "f"
  else if (n =? 8)%nat then String backslash "b"
  else if ((32 <=? n) && (n <=? 126))%nat then String c EmptyString
  else String backslash
         (String "u" (String "0" (String "0"
            (String (hex_digit (n / 16))
               (String (hex_digit (n mod 16)) EmptyString))))).

Fixpoint escape (s : string) : string :=
  match s with
  | EmptyString => EmptyString
  | String c s' => escape_char c ++ escape s'
  end.

Definition encode_str (s : string) : string :=
  String dquote (escape s ++ String dquote EmptyString).

Definition encode_int (z : Z) : string := NilZero.string_of_int (Z.to_int z).

Fixpoint dumps (v : value) : string :=
  match v with
  | JNull => "null"
  | JBool true => "true"
  | JBool false => "false"
  | JInt z => encode_int z
  | JStr s => encode_str s
  | JList l =>
      "[" ++
      (fix items (l : list value) : string :=
         match l with
         | [] => "]"
         | x :: r =>
             match r with
             | [] => dumps x ++ "]"
             | _ :: _ => dumps x ++ ", " ++ items r
             end
         end) l
  | JDict d =>
      "{" ++
      (fix items (d : list (string * value)) : string :=
         match d with
         | [] => "}"
         | (k, x) :: r =>
             match r with
             | [] => encode_str k ++ ": " ++ dumps x ++ "}"
             | _ :: _ => encode_str k ++ ": " ++ dumps x ++ ", " ++ items r
             end
         end) d
  end.

(** *** Decoder *)

Definition is_ws (c : ascii) : bool :=
  let n := nat_of_ascii c in
  ((n =? 32) || (n =? 9) || (n =? 10) || (n =? 13))%nat.

Fixpoint skip_ws (s : string) : string :=
  match s with
  | EmptyString => EmptyString
  | String c s' => if is_ws c then skip_ws s' else s
  end.

Definition is_digit (c : ascii) : bool :=
  let n := nat_of_ascii c in ((48 <=? n) && (n <=? 57))%nat.

Definition hex_value (c : ascii) : option nat :=
  let n := nat_of_ascii c in
  if ((48 <=? n) && (n <=? 57))%nat then Some (n - 48)%nat
  else if ((97 <=? n) && (n <=? 102))%nat then Some (n - 87)%nat
  else if ((65 <=? n) && (n <=? 70))%nat then Some (n - 55)%nat
  else None.

(** The character a one-letter escape stands for. *)
Definition unescape (e : ascii) : option ascii :=
  let n := nat_of_ascii e in
  if (n =? 34)%nat then Some dquote
  else if (n =? 92)%nat then Some backslash
  else if (n =? 47)%nat then Some "/"%char
  else if (n =? 98)%nat then Some "008"%char
  else if (n =? 102)%nat then Some "012"%char
  else if (n =? 110)%nat then Some "010"%char
  else if (n =? 114)%nat then Some "013"%char
  else if (n =? 116)%nat then Some "009"%char
  else None.

Definition cons_char (c : ascii) (r : result (string * string))
  : result (string * string) :=
  let* (s, rest) := r in Ok (String c s, rest).

(** [scanstring]: the text after an opening quote, up to the closing one
    (strict mode: a raw control character is an error). *)
Fixpoint scanstring (s : string) : result (string * string) :=
  match s with
  | EmptyString => Err JSONDecodeError
  | String c s1 =>
      if Ascii.eqb c dquote then Ok (EmptyString, s1)
      else if Ascii.eqb c backslash then
        match s1 with
        | EmptyString => Err JSONDecodeError
        | String e s2 =>
            if Ascii.eqb e "u"%char then
              match s2 with
              | String h1 (String h2 (String h3 (String h4 s6))) =>
                  match hex_value h1, hex_value h2,
                        hex_value h3, hex_value h4 with
                  | Some a, Some b, Some c', Some d =>
                      if ((a =? 0) && (b =? 0))%nat
                      then cons_char (ascii_of_nat (16 * c' + d))
                                     (scanstring s6)
                      else Err OutsideModel
                  | _, _, _, _ => Err JSONDecodeError
                  end
              | _ => Err JSONDecodeError
              end
            else
              match unescape e with
              | Some ch => cons_char ch (scanstring s2)
              | None => Err JSONDecodeError
              end
        end
      else if (nat_of_ascii c <? 32)%nat then Err JSONDecodeError
      else cons_char c (scanstring s1)
  end.

Fixpoint span_digits (s : string) : string * string :=
  match s with
  | EmptyString => (EmptyString, EmptyString)
  | String c s' =>
      if is_digit c
      then let (ds, r) := span_digits s' in (String c ds, r)
      else (EmptyString, s)
  end.

(** The integer part of the number pattern: an optional minus sign, then
    either a single zero or a non-zero digit followed by any digits.
    Returns the matched text and what follows it. *)
Definition match_integer (s : string) : option (string * string) :=
  let (sign, s1) :=
    match s with
    | String c r => if Ascii.eqb c "-"%char then ("-", r) else (EmptyString, s)
    | EmptyString => (EmptyString, s)
    end in
  match s1 with
  | EmptyString => None
  | String c r =>
      if Ascii.eqb c "0"%char then Some (sign ++ "0", r)
      else if is_digit c
      then let (ds, r') := span_digits r in Some (sign ++ String c ds, r')
      else None
  end.

(** Whether a fraction (a dot and a digit) or an exponent (e or E, an
    optional sign, a digit) follows, which makes the literal a float. *)
Definition float_follows (s : string) : bool :=
  match s with
  | String c (String d r) =>
      if Ascii.eqb c "."%char then is_digit d
      else if Ascii.eqb c "e"%char || Ascii.eqb c "E"%char then
        is_digit d
        || ((Ascii.eqb d "-"%char || Ascii.eqb d "+"%char)
            && match r with String d' _ => is_digit d' | _ => false end)
      else false
  | _ => false
  end.

Definition scan_number (s : string) : result (value * string) :=
  match match_integer s with
  | Some (integer, r) =>
      if float_follows r then Err OutsideModel
      else
        match NilZero.int_of_string integer with
        | Some i => Ok (JInt (Z.of_int i), r)
        | None => Err JSONDecodeError
        end
  | None =>
      if PyStr.startswith s "NaN" || PyStr.startswith s "Infinity"
         || PyStr.startswith s "-Infinity"
      then Err OutsideModel else Err JSONDecodeError
  end.

Definition drop (n : nat) (s : string) : string :=
  substring n (String.length s - n) s.

(** [scan_once] with the array loop ([parse_items], entered after the
    opening bracket and the whitespace behind it) and the object loop
    ([parse_pairs], entered after the opening quote of a key).  [fuel]
    bounds the nesting of calls. *)
Fixpoint scan_once (fuel : nat) (s : string) : result (value * string) :=
  match fuel with
  | O => Err RecursionError
  | S fuel' =>
      match s with
      | EmptyString => Err JSONDecodeError
      | String c rest =>
          if Ascii.eqb c dquote then
            let* (str, r) := scanstring rest in Ok (JStr str, r)
          else if Ascii.eqb c "{"%char then
            match skip_ws rest with
            | EmptyString => Err JSONDecodeError
            | String c1 r1 =>
                if Ascii.eqb c1 "}"%char then Ok (JDict [], r1)
                else if Ascii.eqb c1 dquote then
                  let* (pairs, r2) := parse_pairs fuel' r1 in
                  Ok (JDict (dict_of_pairs pairs), r2)
                else Err JSONDecodeError
            end
          else if Ascii.eqb c "["%char then
            match skip_ws rest with
            | EmptyString => Err JSONDecodeError
            | String c1 r1 =>
                if Ascii.eqb c1 "]"%char then Ok (JList [], r1)
                else
                  let* (vs, r2) := parse_items fuel' (String c1 r1) in
                  Ok (JList vs, r2)
            end
          else if PyStr.startswith s "null" then Ok (JNull, drop 4 s)
          else if PyStr.startswith s "true" then Ok (JBool true, drop 4 s)
          else if PyStr.startswith s "false" then Ok (JBool false, drop 5 s)
          else scan_number s
      end
  end
with parse_items (fuel : nat) (s : string)
     : result (list value * string) :=
  match fuel with
  | O => Err RecursionError
  | S fuel' =>
      let* (v, r) := scan_once fuel' s in
      match skip_ws r with
      | EmptyString => Err JSONDecodeError
      | String c r1 =>
          if Ascii.eqb c "]"%char then Ok ([v], r1)
          else if Ascii.eqb c ","%char then
            let* (vs, r2) := parse_items fuel' (skip_ws r1) in
            Ok (v :: vs, r2)
          else Err JSONDecodeError
      end
  end
with parse_pairs (fuel : nat) (s : string)
     : result (list (string * value) * string) :=
  match fuel with
  | O => Err RecursionError
  | S fuel' =>
      let* (key, r) := scanstring s in
      match skip_ws r with
      | EmptyString => Err JSONDecodeError
      | String c r1 =>
          if Ascii.eqb c ":"%char then
            let* (v, r2) := scan_once fuel' (skip_ws r1) in
            match skip_ws r2 with
            | EmptyString => Err JSONDecodeError
            | String c2 r3 =>
                if Ascii.eqb c2 "}"%char then Ok ([(key, v)], r3)
                else if Ascii.eqb c2 ","%char then
                  match skip_ws r3 with
                  | EmptyString => Err JSONDecodeError
                  | String c3 r4 =>
                      if Ascii.eqb c3 dquote then
                        let* (ps, r5) := parse_pairs fuel' r4 in
                        Ok ((key, v) :: ps, r5)
                      else Err JSONDecodeError
                  end
                else Err JSONDecodeError
            end
          else Err JSONDecodeError
      end
  end.

(** [json.loads(s)]: leading whitespace, one value, trailing whitespace,
    end of text.  Two nested calls consume at least one character, so the
    bound given here is never reached. *)
Definition loads (s : string) : result value :=
  let* (v, r) := scan_once (2 * String.length s + 2) (skip_ws s) in
  match skip_ws r with
  | EmptyString => Ok v
  | String _ _ => Err JSONDecodeError
  end.
End Json.

(** ** models.py: pages, content blocks, buttons *)

Module Page.
Import Py.

(** [content_json] is [None] on an object built by [Page(...)] that has
    not been flushed yet; the column default ['{}'] is applied by the
    INSERT. *)
Record t := mk
  { id : Z;
    slug : string;
    title : string;
    parent_slug : option string;
    content_json : option string;
    created_at : Z;
    updated_at : Z }.

(** [json.loads(self.content_json) if self.content_json else {}] *)
Definition get_content (self : t) : result Json.value :=
  match content_json self with
  | None => Ok (Json.JDict [])
  | Some s =>
      if String.eqb s EmptyString then Ok (Json.JDict []) else Json.loads s
  end.

Definition set_content (self : t) (content : Json.value) : t :=
  {| id := id self;
     slug := slug self;
     title := title self;
     parent_slug := parent_slug self;
     content_json := Some (Json.dumps content);
     created_at := created_at self;
     updated_at := updated_at self |}.

(** [page.updated_at = datetime.utcnow()] *)
Definition set_updated_at (self : t) (now : Z) : t :=
  {| id := id self;
     slug := slug self;
     title := title self;
     parent_slug := parent_slug self;
     content_json := content_json self;
     created_at := created_at self;
     updated_at := now |}.
End Page.

Module ContentBlock.
Import Py.

Record t := mk
  { id : Z;
    page_id : Z;
    block_type : string;
    position : Z;
    content_json : option string;
    section_id : option string;
    created_at : Z;
    updated_at : Z }.

Definition get_content (self : t) : result Json.value :=
  match content_json self with
  | None => Ok (Json.JDict [])
  | Some s =>
      if String.eqb s EmptyString then Ok (Json.JDict []) else Json.loads s
  end.

Definition set_content (self : t) (content : Json.value) : t :=
  {| id := id self;
     page_id := page_id self;
     block_type := block_type self;
     position := position self;
     content_json := Some (Json.dumps content);
     section_id := section_id self;
     created_at := created_at self;
     updated_at := updated_at self |}.
End ContentBlock.

Module Button.
Record t := mk
  { id : Z;
    content_block_id : Z;
    icon_url : option string;
    label : string;
    description : option string;
    link_url : string;
    link_type : string;
    position : Z }.
End Button.

(** ** The database: the three tables the editing endpoints touch *)

Module Db.
Record t := mk
  { pages : list Page.t;
    content_blocks : list ContentBlock.t;
    buttons : list Button.t }.

(** The integer primary key given to a new row: one more than the
    largest key in use, 1 in an empty table. *)
Definition next_id (ids : list Z) : Z := 1 + fold_right Z.max 0 ids.

(** [Page.query.filter_by(slug=slug).first()] *)
Definition find_page (st : t) (slug : string) : option Page.t :=
  find (fun p => String.eqb (Page.slug p) slug) (pages st).

Definition option_string_eqb (a b : option string) : bool :=
  match a, b with
  | Some x, Some y => String.eqb x y
  | None, None => true
  | _, _ => false
  end.

(** [ContentBlock.query.filter_by(page_id=.., section_id=..).first()]
    with a string [section_id]. *)
Definition find_block (st : t) (page_id : Z) (section_id : string)
  : option ContentBlock.t :=
  find (fun b => (ContentBlock.page_id b =? page_id)
                 && option_string_eqb (ContentBlock.section_id b)
                                      (Some section_id))
       (content_blocks st).

(** [query(func.max(Button.position)).filter_by(content_block_id=..)
     .scalar()]: [None] when the block has no button. *)
Definition max_position (st : t) (content_block_id : Z) : option Z :=
  fold_left
    (fun acc b =>
       if Button.content_block_id b =? content_block_id then
         match acc with
         | None => Some (Button.position b)
         | Some m => Some (Z.max m (Button.position b))
         end
       else acc)
    (buttons st) None.

(** [x or 0] for an optional integer. *)
Definition or_zero (x : option Z) : Z :=
  match x with
  | None => 0
  | Some z => if z =? 0 then 0 else z
  end.

Definition add_page (p : Page.t) (st : t) : t :=
  {| pages := pages st ++ [p];
     content_blocks := content_blocks st;
     buttons := buttons st |}.

Definition add_block (b : ContentBlock.t) (st : t) : t :=
  {| pages := pages st;
     content_blocks := content_blocks st ++ [b];
     buttons := buttons st |}.

Definition add_button (b : Button.t) (st : t) : t :=
  {| pages := pages st;
     content_blocks := content_blocks st;
     buttons := buttons st ++ [b] |}.

(** The UPDATE a commit issues for a modified, persistent page. *)
Definition update_page (p : Page.t) (st : t) : t :=
  {| pages := map (fun q => if Page.id q =? Page.id p then p else q)
                  (pages st);
     content_blocks := content_blocks st;
     buttons := buttons st |}.
End Db.

(** ** app.py: the page routes and the two write endpoints *)

Module App.
Import Py.

Inductive response :=
| Unauthorized
  (** what [login_required] answers for a caller that is not
      authenticated: [login_manager.unauthorized()] *)
| JsonSuccess (id : option Z)
  (** [jsonify({'success': True})], with the new row's id when given *)
| Rendered (page : Page.t) (content_html : Json.value)
| InternalServerError (e : exn).

(** [slug.replace('-', ' ').title()] *)
Definition humanize (slug : string) : string :=
  PyStr.title (PyStr.replace "-"%char " "%char slug).

(** The row a commit or flush inserts for [Page(slug=.., title=..)].
    [content_json] is the value set on the object, if any; otherwise the
    column default applies. *)
Definition new_page (st : Db.t) (slug title : string)
           (content_json : option string) (now : Z) : Page.t :=
  {| Page.id := Db.next_id (map Page.id (Db.pages st));
     Page.slug := slug;
     Page.title := title;
     Page.parent_slug := None;
     Page.content_json :=
       match content_json with
       | Some s => Some s
       | None => Some "{}"
       end;
     Page.created_at := now;
     Page.updated_at := now |}.

(** The tail shared by both page views: read the document and pick the
    [html] key or the route's default text.  A non-dict document has no
    [get] method. *)
Definition render (default : string) (st : Db.t) (page : Page.t)
  : Db.t * response :=
  match Page.get_content page with
  | Err e => (st, InternalServerError e)
  | Ok (Json.JDict d) =>
      (st, Rendered page
             match Json.dict_get "html" d with
             | Some v => v
             | None => Json.JStr default
             end)
  | Ok _ => (st, InternalServerError AttributeError)
  end.

(** [@main_bp.route('/page/<slug>')] *)
Definition page (get_default_page_content : string -> string)
           (now : Z) (slug : string) (st : Db.t) : Db.t * response :=
  match Db.find_page st slug with
  | Some page_obj => render (get_default_page_content slug) st page_obj
  | None =>
      let page_obj := new_page st slug (humanize slug) None now in
      render (get_default_page_content slug)
             (Db.add_page page_obj st) page_obj
  end.

(** [@main_bp.route('/rules/<slug>')] *)
Definition rules_detail (get_default_rules_content : string -> string)
           (now : Z) (slug : string) (st : Db.t) : Db.t * response :=
  match Db.find_page st ("rules/" ++ slug) with
  | Some page => render (get_default_rules_content slug) st page
  | None =>
      let page := new_page st ("rules/" ++ slug) (humanize slug) None now in
      render (get_default_rules_content slug) (Db.add_page page st) page
  end.

(** [@login_required]: the view runs only for an authenticated caller. *)
Definition login_required (current_user : Auth.current_user_t)
           (view : Db.t -> Db.t * response) (st : Db.t)
  : Db.t * response :=
  if Auth.is_authenticated current_user then view st
  else (st, Unauthorized).

(** [request.form] of the button endpoint; a missing field is [None]. *)
Record button_form := mk_form
  { f_page_slug : option string;
    f_section_id : option string;
    f_label : option string;
    f_description : option string;
    f_link_url : option string;
    f_link_type : option string;
    f_icon_url : option string }.

(** [data.get(key, default)] *)
Definition form_get (field : option string) (default : string) : string :=
  match field with
  | Some s => s
  | None => default
  end.

(** The body of [create_button]. *)
Definition create_button_view (data : button_form) (now : Z) (st : Db.t)
  : Db.t * response :=
  let page_slug := form_get (f_page_slug data) "home" in
  let section_id := form_get (f_section_id data) "main-nav" in
  let '(page, st1) :=
    match Db.find_page st page_slug with
    | Some page => (page, st)
    | None =>
        let page := new_page st page_slug (humanize page_slug) None now in
        (page, Db.add_page page st)
    end in
  let '(content_block, st2) :=
    match Db.find_block st1 (Page.id page) section_id with
    | Some content_block => (content_block, st1)
    | None =>
        let content_block :=
          {| ContentBlock.id :=
               Db.next_id (map ContentBlock.id (Db.content_blocks st1));
             ContentBlock.page_id := Page.id page;
             ContentBlock.block_type := "button_grid";
             ContentBlock.position := 0;
             ContentBlock.content_json := Some "{}";
             ContentBlock.section_id := Some section_id;
             ContentBlock.created_at := now;
             ContentBlock.updated_at := now |} in
        (content_block, Db.add_block content_block st1)
    end in
  let max_pos :=
    Db.or_zero (Db.max_position st2 (ContentBlock.id content_block)) in
  let button :=
    {| Button.id := Db.next_id (map Button.id (Db.buttons st2));
       Button.content_block_id := ContentBlock.id content_block;
       Button.icon_url := Some (form_get (f_icon_url data) "");
       Button.label := form_get (f_label data) "New Button";
       Button.description := Some (form_get (f_description data) "");
       Button.link_url := form_get (f_link_url data) "#";
       Button.link_type := form_get (f_link_type data) "internal";
       Button.position := max_pos + 1 |} in
  (Db.add_button button st2, JsonSuccess (Some (Button.id button))).

(** [@api_bp.route('/button', methods=['POST'])] *)
Definition create_button (current_user : Auth.current_user_t)
           (data : button_form) (now : Z) (st : Db.t) : Db.t * response :=
  login_required current_user (create_button_view data now) st.

(** The body of [update_page_content].  [data] is the parsed request
    body.  A page that is not found is built in memory (its
    [content_json] still unset, its key the one the INSERT will give it)
    and inserted by the final commit.  Nothing reaches the database
    before that commit, so an exception leaves it as it was. *)
Definition update_page_content_view (slug : string) (data : Json.value)
           (now : Z) (st : Db.t) : Db.t * response :=
  let found := Db.find_page st slug in
  let page :=
    match found with
    | Some page => page
    | None =>
        {| Page.id := Db.next_id (map Page.id (Db.pages st));
           Page.slug := slug;
           Page.title := humanize slug;
           Page.parent_slug := None;
           Page.content_json := None;
           Page.created_at := now;
           Page.updated_at := now |}
    end in
  let outcome :=
    let* content := Page.get_content page in
    let* html :=
      match data with
      | Json.JDict d =>
          Ok match Json.dict_get "content" d with
             | Some v => v
             | None => Json.JStr EmptyString
             end
      | _ => Err AttributeError
      end in
    match content with
    | Json.JDict c =>
        Ok (Page.set_updated_at
              (Page.set_content page (Json.JDict (Json.dict_set "html" html c)))
              now)
    | _ => Err TypeError
    end in
  match outcome with
  | Err e => (st, InternalServerError e)
  | Ok page' =>
      (match found with
       | Some _ => Db.update_page page' st
       | None => Db.add_page page' st
       end,
       JsonSuccess None)
  end.

(** [@api_bp.route('/page/<slug>/content', methods=['PUT'])] *)
Definition update_page_content (current_user : Auth.current_user_t)
           (slug : string) (data : Json.value) (now : Z) (st : Db.t)
  : Db.t * response :=
  login_required current_user (update_page_content_view slug data now) st.
End App.

(** ** The permission rule as the specification words it (section 4.1),
    for comparison with [User.has_permission] *)

Module Spec.
(** "if [page_pattern == "*"], the grant matches regardless of
    [page_slug]; else if [page_pattern] ends with [/*], the grant matches
    when [page_slug] starts with the pattern's prefix (pattern minus the
    trailing [*]); else the grant matches only on exact equality". *)
Definition page_match (page_pattern page_slug : string) : bool :=
  if String.eqb page_pattern "*" then true
  else if PyStr.endswith page_pattern "/*"
       then PyStr.startswith page_slug (PyStr.drop_last 1 page_pattern)
       else String.eqb page_pattern page_slug.

(** "the grant's [section_pattern] is absent, or the query's
    [section_id_or_none] is absent, or they are equal". *)
Definition section_match (grant_section query_section : option string)
  : bool :=
  match grant_section, query_section with
  | None, _ => true
  | _, None => true
  | Some g, Some q => String.eqb g q
  end.

(** "The first grant that matches (page AND section) short-circuits:
    return its [can_edit] value immediately.  If no grant matches,
    return [false]." *)
Fixpoint authorize (grants : list EditorPermission.t) (page_slug : string)
         (section_id : option string) : bool :=
  match grants with
  | [] => false
  | g :: rest =>
      if page_match (EditorPermission.page_slug g) page_slug
         && section_match (EditorPermission.section_id g) section_id
      then EditorPermission.can_edit g
      else authorize rest page_slug section_id
  end.

(** "title = humanize(slug) (replace [-] with space, title-case each
    word": the words are the stretches of the slug between hyphens, and a
    word is title-cased by giving its first character its title case and
    every other character its lower case. *)
Fixpoint words (slug : string) : list string :=
  match slug with
  | EmptyString => [EmptyString]
  | String c rest =>
      if Ascii.eqb c "-"%char then EmptyString :: words rest
      else match words rest with
           | w :: ws => String c w :: ws
           | [] => [String c EmptyString]
           end
  end.

Fixpoint lower_all (w : string) : string :=
  match w with
  | EmptyString => EmptyString
  | String c w' => String (PyStr.to_lower c) (lower_all w')
  end.

Definition capitalize (w : string) : string :=
  match w with
  | EmptyString => EmptyString
  | String c w' => PyStr.to_title c ++ lower_all w'
  end.

Definition humanize (slug : string) : string :=
  String.concat " " (map capitalize (words slug)).
End Spec.

(** ** Reading [has_permission] grant by grant *)

Module Grant.
Definition is_wildcard (perm : EditorPermission.t) : bool :=
  String.eqb (EditorPermission.page_slug perm) "*".

(** The page test of a grant that is not the wildcard: a pattern ending
    in [/*] covers the slugs that start with the pattern cut by two
    characters, and any pattern covers the slug equal to it. *)
Definition page_matches (perm : EditorPermission.t) (page_slug : string)
  : bool :=
  (PyStr.endswith (EditorPermission.page_slug perm) "/*"
   && PyStr.startswith page_slug
        (PyStr.drop_last 2 (EditorPermission.page_slug perm)))
  || String.eqb (EditorPermission.page_slug perm) page_slug.

(** The grant ends the iteration. *)
Definition decides (perm : EditorPermission.t) (page_slug : string)
           (section_id : option string) : bool :=
  is_wildcard perm
  || (page_matches perm page_slug && User.section_ok section_id perm).

(** The value returned when the grant ends the iteration. *)
Definition outcome (perm : EditorPermission.t) : bool :=
  if is_wildcard perm then true else EditorPermission.can_edit perm.
End Grant.

(** ** Vocabulary for the statements about content documents *)

Module JsonDoc.
Import Json.

(** Every dict inside the value has pairwise distinct keys, as every Python
    dict has. *)
Fixpoint unique_keys (v : value) : Prop :=
  match v with
  | JList l =>
      (fix all (l : list value) : Prop :=
         match l with
         | [] => True
         | x :: r => unique_keys x /\ all r
         end) l
  | JDict d =>
      NoDup (map fst d)
      /\ (fix all (d : list (string * value)) : Prop :=
            match d with
            | [] => True
            | (_, x) :: r => unique_keys x /\ all r
            end) d
  | _ => True
  end.

(** The number of nodes of a value, one more per list element or dict
    item: the nesting the decoder needs for it. *)
Fixpoint size (v : value) : nat :=
  match v with
  | JList l =>
      S ((fix items (l : list value) : nat :=
            match l with
            | [] => O
            | x :: r => S (size x + items r)
            end) l)
  | JDict d =>
      S ((fix items (d : list (string * value)) : nat :=
            match d with
            | [] => O
            | (_, x) :: r => S (size x + items r)
            end) d)
  | _ => 1%nat
  end.

Fixpoint items_size (l : list value) : nat :=
  match l with
  | [] => O
  | x :: r => S (size x + items_size r)
  end.

Fixpoint pairs_size (d : list (string * value)) : nat :=
  match d with
  | [] => O
  | (_, x) :: r => S (size x + pairs_size r)
  end.

(** The text [dumps] writes after the opening bracket of a list. *)
Fixpoint dump_items (l : list value) : string :=
  match l with
  | [] => "]"
  | x :: r =>
      match r with
      | [] => dumps x ++ "]"
      | _ :: _ => dumps x ++ ", " ++ dump_items r
      end
  end.

(** The text [dumps] writes after the opening brace of a dict. *)
Fixpoint dump_pairs (d : list (string * value)) : string :=
  match d with
  | [] => "}"
  | (k, x) :: r =>
      match r with
      | [] => encode_str k ++ ": " ++ dumps x ++ "}"
      | _ :: _ => encode_str k ++ ": " ++ dumps x ++ ", " ++ dump_pairs r
      end
  end.

(** The characters a number literal may continue with; the text after an
    encoded integer must not start with one of them. *)
Definition continues_number (c : ascii) : bool :=
  is_digit c || Ascii.eqb c "."%char || Ascii.eqb c "e"%char
  || Ascii.eqb c "E"%char.

Definition ends_number (rest : string) : bool :=
  match rest with
  | EmptyString => true
  | String c _ => negb (continues_number c)
  end.

(** [x] is read back from its encoding, whatever delimiter follows. *)
Definition decodes (x : value) : Prop :=
  forall fuel rest,
    (size x <= fuel)%nat ->
    ends_number rest = true ->
    scan_once fuel (dumps x ++ rest) = Py.Ok (x, rest).

(** The text of a non-empty dict after the opening quote of its first
    key. *)
Definition pairs_tail (k : string) (x : value) (r : list (string * value))
  : string :=
  escape k
  ++ String dquote
       (": " ++ dumps x
        ++ match r with
           | [] => "}"
           | _ :: _ => ", " ++ dump_pairs r
           end).

(** The characters an encoded value can start with. *)
Definition starts_value (c : ascii) : bool :=
  is_digit c || Ascii.eqb c "-"%char || Ascii.eqb c dquote
  || Ascii.eqb c "["%char || Ascii.eqb c "{"%char || Ascii.eqb c "n"%char
  || Ascii.eqb c "t"%char || Ascii.eqb c "f"%char.
End JsonDoc.

(** ** Vocabulary for the statements about [create_button] *)

(** The positions of the buttons a block holds. *)
Definition block_positions (st : Db.t) (content_block_id : Z) : list Z :=
  map Button.position
      (filter (fun b => Button.content_block_id b =? content_block_id)
              (Db.buttons st)).

(** The key of the page an endpoint works on: the page found for the slug,
    or the key the page created for it receives. *)
Definition target_page_id (st : Db.t) (slug : string) : Z :=
  match Db.find_page st slug with
  | Some p => Page.id p
  | None => Db.next_id (map Page.id (Db.pages st))
  end.

(** ** models.py: radar charts, replay reviews, teams *)

Module RadarChart.
Import Py.

Record t := mk
  { id : Z;
    team_id : option Z;
    content_block_id : option Z;
    title : string;
    axes_json : option string;
    data_json : option string }.

(** [json.loads(self.axes_json) if self.axes_json else []] *)
Definition get_axes (self : t) : result Json.value :=
  match axes_json self with
  | None => Ok (Json.JList [])
  | Some s =>
      if String.eqb s EmptyString then Ok (Json.JList []) else Json.loads s
  end.

Definition set_axes (self : t) (axes : Json.value) : t :=
  {| id := id self;
     team_id := team_id self;
     content_block_id := content_block_id self;
     title := title self;
     axes_json := Some (Json.dumps axes);
     data_json := data_json self |}.

(** [json.loads(self.data_json) if self.data_json else []] *)
Definition get_data (self : t) : result Json.value :=
  match data_json self with
  | None => Ok (Json.JList [])
  | Some s =>
      if String.eqb s EmptyString then Ok (Json.JList []) else Json.loads s
  end.

Definition set_data (self : t) (data : Json.value) : t :=
  {| id := id self;
     team_id := team_id self;
     content_block_id := content_block_id self;
     title := title self;
     axes_json := axes_json self;
     data_json := Some (Json.dumps data) |}.
End RadarChart.

Module ReplayReview.
Record t := mk
  { id : Z;
    title : string;
    content_html : string;
    gamemode : option string;
    map_name : option string;
    author : option string;
    published_at : Z;
    created_at : Z }.
End ReplayReview.

Module Team.
Record t := mk
  { id : Z;
    name : string;
    slug : string;
    icon_url : option string;
    description : option string;
    position : Z }.
End Team.

Module TeamMember.
Record t := mk
  { id : Z;
    team_id : Z;
    name : string;
    role : option string;
    avatar_url : option string;
    description : option string;
    position : Z }.
End TeamMember.

(** ** Query clauses: [order_by], [limit] *)

Module Query.
(** [order_by(key)]: ascending.  SQL leaves the order of rows with equal
    keys open; the embedding keeps them in storage order. *)
Fixpoint insert_by {A : Type} (key : A -> Z) (x : A) (l : list A) : list A :=
  match l with
  | [] => [x]
  | y :: r => if key x <=? key y then x :: y :: r else y :: insert_by key x r
  end.

Definition order_by {A : Type} (key : A -> Z) (l : list A) : list A :=
  fold_right (insert_by key) [] l.

(** [order_by(key.desc())] *)
Definition order_by_desc {A : Type} (key : A -> Z) (l : list A) : list A :=
  order_by (fun x => - key x) l.

(** [limit(n)] *)
Definition limit {A : Type} (n : nat) (l : list A) : list A := firstn n l.
End Query.

(** ** auth.py: editor mode *)

Module EditorMode.
End EditorMode.

(** ** app.py: the button listing, the reviews endpoint, the team page *)

Module Views.

(** [get_page_buttons(page_slug, section_id)].  A [section_id] of [None]
    makes the filter [section_id IS NULL]. *)
Definition get_page_buttons (st : Db.t) (page_slug : string)
           (section_id : option string) : list Button.t :=
  match Db.find_page st page_slug with
  | None => []
  | Some page =>
      match find (fun b => (ContentBlock.page_id b =? Page.id page)
                           && Db.option_string_eqb (ContentBlock.section_id b)
                                                   section_id)
                 (Db.content_blocks st) with
      | None => []
      | Some content_block =>
          Query.order_by Button.position
            (filter (fun b => Button.content_block_id b
                              =? ContentBlock.id content_block)
                    (Db.buttons st))
      end
  end.

(** The query of the reviews endpoint: the [gamemode] filter is applied
    only for a non-empty parameter; a NULL column equals no parameter. *)
Definition reviews_query (table : list ReplayReview.t) (gamemode : string)
  : list ReplayReview.t :=
  Query.limit 10
    (Query.order_by_desc ReplayReview.published_at
       (if String.eqb gamemode EmptyString then table
        else filter (fun r => Db.option_string_eqb (ReplayReview.gamemode r)
                                                   (Some gamemode))
                    table)).

Definition nl : string := String "010"%char EmptyString.
Definition quote : string := String Json.dquote EmptyString.

(** What an f-string writes for a nullable text column. *)
Definition py_str (x : option string) : string :=
  match x with
  | Some s => s
  | None => "None"
  end.

(** The card the endpoint writes for one review.  [strftime] stands for
    [published_at.strftime('%Y-%m-%d')]. *)
Definition review_card (strftime : Z -> string) (review : ReplayReview.t)
  : string :=
  String.concat EmptyString
    [nl;
     "        <div class=";
     quote;
     "review-card";
     quote;
     ">";
     nl;
     "            <div class=";
     quote;
     "review-header";
     quote;
     ">";
     nl;
     "                <span class=";
     quote;
     "review-gamemode";
     quote;
     ">";
     py_str (ReplayReview.gamemode review);
     "</span>";
     nl;
     "                <span class=";
     quote;
     "review-map";
     quote;
     ">";
     py_str (ReplayReview.map_name review);
     "</span>";
     nl;
     "            </div>";
     nl;
     "            <h4 class=";
     quote;
     "review-title";
     quote;
     ">";
     ReplayReview.title review;
     "</h4>";
     nl;
     "            <div class=";
     quote;
     "review-content";
     quote;
     ">";
     substring 0 200 (ReplayReview.content_html review);
     "...</div>";
     nl;
     "            <div class=";
     quote;
     "review-meta";
     quote;
     ">";
     nl;
     "                <span>by ";
     py_str (ReplayReview.author review);
     "</span>";
     nl;
     "                <span>";
     strftime (ReplayReview.published_at review);
     "</span>";
     nl;
     "            </div>";
     nl;
     "        </div>";
     nl;
     "        "].

Definition no_reviews_found : string :=
  String.concat EmptyString
    ["<p class="; quote; "text-muted"; quote;
     ">No replay reviews found.</p>"].

(** [@api_bp.route('/reviews')].  [gamemode] and [time_filter] are the
    query parameters [gamemode] and [filter], [None] when not given. *)
Definition reviews (strftime : Z -> string) (table : list ReplayReview.t)
           (gamemode time_filter : option string) : string :=
  let gamemode := App.form_get gamemode EmptyString in
  let time_filter := App.form_get time_filter EmptyString in
  let html :=
    fold_left (fun html review => html ++ review_card strftime review)
              (reviews_query table gamemode) EmptyString in
  if String.eqb html EmptyString then no_reviews_found else html.

Inductive team_response :=
| NotFound
  (** [first_or_404()] found no team *)
| TeamPage (team : Team.t) (members : list TeamMember.t)
           (radar_charts : list RadarChart.t)
           (reviews : list ReplayReview.t).

Definition option_Z_eqb (a : option Z) (b : Z) : bool :=
  match a with
  | Some x => x =? b
  | None => false
  end.

(** [@main_bp.route('/teams/<slug>')] *)
Definition team_detail (teams : list Team.t) (members : list TeamMember.t)
           (charts : list RadarChart.t) (review_table : list ReplayReview.t)
           (slug : string) : team_response :=
  match find (fun t => String.eqb (Team.slug t) slug) teams with
  | None => NotFound
  | Some team =>
      TeamPage team
        (Query.order_by TeamMember.position
           (filter (fun m => TeamMember.team_id m =? Team.id team) members))
        (filter (fun c => option_Z_eqb (RadarChart.team_id c) (Team.id team))
                charts)
        (if String.eqb slug "trainer"
         then Query.limit 10
                (Query.order_by_desc ReplayReview.published_at review_table)
         else [])
  end.
End Views.

(** ** Vocabulary for the further statements *)

(** The grant with its section restriction removed. *)
Definition erase_section (perm : EditorPermission.t) : EditorPermission.t :=
  EditorPermission.mk (EditorPermission.id perm)
                      (EditorPermission.user_id perm)
                      (EditorPermission.page_slug perm)
                      None
                      (EditorPermission.can_edit perm).

(** The document the content endpoint starts from: the stored document of
    the page found for the slug, the empty document when there is no such
    page. *)
Definition stored_document (st : Db.t) (slug : string)
  : Py.result Json.value :=
  match Db.find_page st slug with
  | Some p => Page.get_content p
  | None => Py.Ok (Json.JDict [])
  end.

(** The [content] field of a request body, with the default of
    [data.get('content', '')]. *)
Definition body_content (body : list (string * Json.value)) : Json.value :=
  match Json.dict_get "content" body with
  | Some v => v
  | None => Json.JStr EmptyString
  end.

(** The constraints the schema declares on the three tables: primary keys,
    the unique page slug, and the two foreign keys. *)
Definition keys_consistent (st : Db.t) : Prop :=
  NoDup (map Page.id (Db.pages st))
  /\ NoDup (map Page.slug (Db.pages st))
  /\ NoDup (map ContentBlock.id (Db.content_blocks st))
  /\ NoDup (map Button.id (Db.buttons st))
  /\ (forall b, In b (Db.content_blocks st) ->
                In (ContentBlock.page_id b) (map Page.id (Db.pages st)))
  /\ (forall b, In b (Db.buttons st) ->
                In (Button.content_block_id b)
                   (map ContentBlock.id (Db.content_blocks st))).


(** Whether the title of a slug stays within U+0000..U+00FF. *)
Definition humanize_in_range (slug : string) : bool :=
  PyStr.title_in_range (PyStr.replace "-"%char " "%char slug).

(** The block whose buttons [get_page_buttons] lists, if any. *)
Definition listed_block (st : Db.t) (page_slug : string)
           (section_id : option string) : option ContentBlock.t :=
  match Db.find_page st page_slug with
  | None => None
  | Some page =>
      find (fun b => (ContentBlock.page_id b =? Page.id page)
                     && Db.option_string_eqb (ContentBlock.section_id b)
                                             section_id)
           (Db.content_blocks st)
  end.

Definition by_position (a b : Button.t) : Prop :=
  Button.position a <= Button.position b.

Definition newest_first (a b : ReplayReview.t) : Prop :=
  ReplayReview.published_at b <= ReplayReview.published_at a.

Definition matches_gamemode (gamemode : string) (r : ReplayReview.t) : bool :=
  String.eqb gamemode EmptyString
  || Db.option_string_eqb (ReplayReview.gamemode r) (Some gamemode).

(** ** Sample data used by the examples below *)

Definition deny_all : EditorPermission.t :=
  EditorPermission.mk 1 1 "*" None false.
Definition allow_rules_x : EditorPermission.t :=
  EditorPermission.mk 2 1 "rules/x" None true.
Definition teams_editor_grant : EditorPermission.t :=
  EditorPermission.mk 3 2 "teams/*" None true.
Definition user_with (perms : list EditorPermission.t) : User.t :=
  User.mk 1 "editor" "editor@example.com" true perms.
Definition inactive_admin : User.t :=
  User.mk 1 "admin" "admin@example.com" false
          [EditorPermission.mk 1 1 "*" None true].
Definition empty_db : Db.t := Db.mk [] [] [].
Definition plain_user : User.t := user_with [].
Definition admin : User.t :=
  User.mk 2 "admin" "admin@example.com" true
          [EditorPermission.mk 4 2 "*" None true].
Definition put_body (html : string) : Json.value :=
  Json.JDict [("content", Json.JStr html)].
Definition home_page : Page.t :=
  Page.mk 1 "home" "FAForever Wiki" None (Some "{}") 0 0.
Definition text_block : ContentBlock.t :=
  ContentBlock.mk 1 1 "text" 0 (Some "{}") (Some "main-nav") 0 0.
Definition nav_button (id position : Z) : Button.t :=
  Button.mk id 1 (Some EmptyString) "Rules" (Some EmptyString) "/rules"
            "internal" position.
Definition seeded_db : Db.t :=
  Db.mk [home_page] [text_block]
        [nav_button 1 3; nav_button 2 5; nav_button 3 4].
Definition default_form : App.button_form :=
  App.mk_form None None None None None None None.
Definition broken_page : Page.t :=
  Page.mk 1 "home" "FAForever Wiki" None (Some "<p>welcome</p>") 0 0.
Definition broken_block : ContentBlock.t :=
  ContentBlock.mk 1 1 "text" 0 (Some "{") (Some "main-nav") 0 0.
Definition broken_db : Db.t := Db.mk [broken_page] [broken_block] [].
Definition layout_document : Json.value :=
  Json.JDict [("layout", Json.JStr "wide");
              ("tags", Json.JList [Json.JStr "rules"; Json.JInt 3;
                                   Json.JBool true; Json.JNull]);
              ("html", Json.JStr "<p>old</p>")].
Definition layout_page : Page.t :=
  Page.mk 7 "rules/general-rules" "General Rules" None
          (Some (Json.dumps layout_document)) 0 0.
Definition layout_db : Db.t := Db.mk [home_page; layout_page] [] [].
(** A slug whose first letter is U+00FC, the small u with diaeresis, and
    its title, which begins with the capital U+00DC. *)
Definition ueber_uns : string := String "252"%char "ber-uns".
Definition ueber_uns_title : string := String "220"%char "ber Uns".
Definition no_default : string -> string := fun _ => EmptyString.

Definition nav_section_grant : EditorPermission.t :=
  EditorPermission.mk 5 3 "home" (Some "main-nav") true.
Definition literal_star_grant : EditorPermission.t :=
  EditorPermission.mk 6 3 "teams/*/roster" None true.
Definition number_body : list (string * Json.value) :=
  [("content", Json.JList [Json.JInt 1; Json.JInt 2])].
Definition empty_body : list (string * Json.value) :=
  [("title", Json.JStr "ignored")].

(** * Properties *)

(** ** Facts on strings *)

Section StringFacts.
Local Open Scope nat_scope.

Lemma length_app (a b : string) :
  String.length (a ++ b) = String.length a + String.length b.
Proof. induction a as [|c a IH]; simpl; [reflexivity | now rewrite IH]. Qed.

Lemma substring_whole (s : string) : substring 0 (String.length s) s = s.
Proof. induction s as [|c s IH]; simpl; [reflexivity | now rewrite IH]. Qed.

Lemma substring_head_app (a b : string) :
  substring 0 (String.length a) (a ++ b) = a.
Proof.
  induction a as [|c a IH]; simpl.
  - now destruct b.
  - now rewrite IH.
Qed.

Lemma substring_tail_app (a b : string) (n : nat) :
  substring (String.length a) n (a ++ b) = substring 0 n b.
Proof. induction a as [|c a IH]; simpl; [reflexivity | exact IH]. Qed.

Lemma prefix_app (a b : string) : String.prefix a (a ++ b) = true.
Proof.
  induction a as [|c a IH]; simpl.
  - now destruct b.
  - destruct (ascii_dec c c); [exact IH | congruence].
Qed.

Lemma prefix_refl (a : string) : String.prefix a a = true.
Proof.
  induction a as [|c a IH]; simpl; [reflexivity|].
  destruct (ascii_dec c c); [exact IH | congruence].
Qed.

Lemma endswith_app (p suf : string) : PyStr.endswith (p ++ suf) suf = true.
Proof.
  unfold PyStr.endswith. rewrite length_app.
  replace (String.length p + String.length suf - String.length suf)
    with (String.length p) by lia.
  rewrite substring_tail_app, substring_whole, String.eqb_refl.
  rewrite andb_true_r. apply Nat.leb_le. lia.
Qed.

Lemma drop_last_app (p suf : string) :
  PyStr.drop_last (String.length suf) (p ++ suf) = p.
Proof.
  unfold PyStr.drop_last. rewrite length_app.
  replace (String.length p + String.length suf - String.length suf)
    with (String.length p) by lia.
  apply substring_head_app.
Qed.

Lemma prefix_pattern_not_star (p : string) :
  String.eqb (p ++ "/*") "*" = false.
Proof.
  apply String.eqb_neq. intros H.
  apply (f_equal String.length) in H. rewrite length_app in H.
  simpl in H. lia.
Qed.
End StringFacts.

(** ** The permission check *)

Section Permission.
Import EditorPermission.

Lemma perm_step_decides (perm : EditorPermission.t) (slug : string)
      (sec : option string) :
  User.perm_step perm slug sec
  = if Grant.decides perm slug sec then Some (Grant.outcome perm) else None.
Proof.
  unfold User.perm_step, Grant.decides, Grant.outcome, Grant.page_matches,
    Grant.is_wildcard.
  destruct (String.eqb (page_slug perm) "*"); [reflexivity|].
  destruct (PyStr.endswith (page_slug perm) "/*");
    destruct (PyStr.startswith slug (PyStr.drop_last 2 (page_slug perm)));
    destruct (User.section_ok sec perm);
    destruct (String.eqb (page_slug perm) slug); reflexivity.
Qed.

Lemma loop_skips (pre rest : list EditorPermission.t) (slug : string)
      (sec : option string) :
  (forall h, In h pre -> Grant.decides h slug sec = false) ->
  User.has_permission_loop (pre ++ rest)%list slug sec
  = User.has_permission_loop rest slug sec.
Proof.
  induction pre as [|h pre IH]; intros Hpre; simpl; [reflexivity|].
  rewrite perm_step_decides, (Hpre h (or_introl eq_refl)).
  apply IH. intros k Hk. apply Hpre. now right.
Qed.

(** C1 (as amended).  [has_permission] walks the grants in stored order
    and stops at the first grant that decides: the wildcard grant [*]
    (result [True], whatever its section and [can_edit]) or a grant whose
    page pattern covers the slug and whose section test passes (result
    its [can_edit]).  Grants after it are never consulted, and the result
    is [False] when no grant decides. *)
Theorem has_permission_first_deciding_grant
        (u : User.t) (slug : string) (sec : option string) :
  (forall pre g post,
      User.permissions u = (pre ++ g :: post)%list ->
      (forall h, In h pre -> Grant.decides h slug sec = false) ->
      Grant.decides g slug sec = true ->
      User.has_permission u slug sec = Grant.outcome g)
  /\ ((forall g, In g (User.permissions u) ->
                 Grant.decides g slug sec = false) ->
      User.has_permission u slug sec = false).
Proof.
  unfold User.has_permission. split.
  - intros pre g post -> Hpre Hg.
    rewrite (loop_skips pre (g :: post) slug sec Hpre). simpl.
    now rewrite perm_step_decides, Hg.
  - intros Hnone.
    rewrite <- (List.app_nil_r (User.permissions u)).
    now rewrite (loop_skips _ [] slug sec Hnone).
Qed.

Lemma has_permission_first_deciding_grant_witness :
  User.has_permission (user_with [teams_editor_grant; deny_all; allow_rules_x])
                      "rules/x" None = true
  /\ User.has_permission (user_with [teams_editor_grant]) "rules/x" None
     = false.
Proof.
  split.
  - apply (proj1 (has_permission_first_deciding_grant
                    (user_with [teams_editor_grant; deny_all; allow_rules_x])
                    "rules/x" None)
             [teams_editor_grant] deny_all [allow_rules_x]).
    + reflexivity.
    + intros h [<- | []]. reflexivity.
    + reflexivity.
  - apply (proj2 (has_permission_first_deciding_grant
                    (user_with [teams_editor_grant]) "rules/x" None)).
    intros g [<- | []]. reflexivity.
Defined.

(** C1, counterexample.  A user whose only grant is
    [("*", None, can_edit = False)] asks for page [home]: the first
    matching grant of the specification carries [can_edit = False], so
    the claimed result is [False]; [has_permission] returns [True]. *)
Lemma has_permission_wildcard_ignores_can_edit :
  Spec.page_match (page_slug deny_all) "home" = true
  /\ Spec.section_match (section_id deny_all) None = true
  /\ can_edit deny_all = false
  /\ Spec.authorize [deny_all] "home" None = false
  /\ User.has_permission (user_with [deny_all]) "home" None = true.
Proof. repeat split. Qed.

(** C3 (as amended).  A grant whose page pattern is [p/*] covers exactly
    the slugs that start with [p], the pattern cut by its trailing [/*]:
    with no section restriction, a single such allowing grant authorizes
    a slug if and only if the slug starts with [p].  So [teams/*] covers
    [teams/trainer] and also [teams], and does not cover
    [other/teams/x]. *)
Theorem prefix_grant_covers_slugs_starting_with_stem
        (p slug : string) (sec : option string) (g : EditorPermission.t) :
  page_slug g = p ++ "/*" ->
  User.perm_step g slug sec
  = (if PyStr.startswith slug p && User.section_ok sec g
     then Some (can_edit g) else None)
  /\ (can_edit g = true ->
      User.has_permission (user_with [g]) slug None
      = PyStr.startswith slug p)
  /\ User.perm_step teams_editor_grant "teams/trainer" None = Some true
  /\ User.perm_step teams_editor_grant "teams" None = Some true
  /\ User.perm_step teams_editor_grant "other/teams/x" None = None.
Proof.
  intros Hg.
  assert (Hstep : forall sec',
             User.perm_step g slug sec'
             = if PyStr.startswith slug p && User.section_ok sec' g
               then Some (can_edit g) else None).
  { intros sec'. unfold User.perm_step. rewrite Hg.
    rewrite prefix_pattern_not_star, (endswith_app p "/*").
    change 2%nat with (String.length "/*"). rewrite drop_last_app.
    destruct (PyStr.startswith slug p) eqn:Hpre; simpl.
    - destruct (User.section_ok sec' g); [reflexivity|].
      now destruct (String.eqb (p ++ "/*") slug).
    - destruct (String.eqb_spec (p ++ "/*") slug) as [<-|]; [|reflexivity].
      unfold PyStr.startswith in Hpre. now rewrite prefix_app in Hpre. }
  split; [apply Hstep|]. split; [|repeat split].
  intros Hedit. unfold User.has_permission. simpl.
  rewrite (Hstep None), Hedit. simpl. rewrite andb_true_r.
  now destruct (PyStr.startswith slug p).
Qed.

Lemma prefix_grant_covers_slugs_starting_with_stem_witness :
  User.perm_step teams_editor_grant "teamsters" None = Some true.
Proof.
  exact (proj1 (prefix_grant_covers_slugs_starting_with_stem
                  "teams" "teamsters" None teams_editor_grant eq_refl)).
Defined.

(** C3, counterexample.  The specification's prefix of [teams/*] is
    [teams/], which the slug [teams] does not start with; the code cuts
    two characters and the grant decides for [teams]. *)
Lemma prefix_grant_covers_bare_stem :
  Spec.page_match "teams/*" "teams" = false
  /\ User.perm_step teams_editor_grant "teams" None = Some true
  /\ User.has_permission (user_with [teams_editor_grant]) "teams" None
     = true.
Proof. repeat split. Qed.

(** C6.  A caller that is not authenticated is refused by [can_edit]
    whatever grants any user holds (for a loaded but inactive user, even
    its own wildcard grant), and both write endpoints answer with the
    login manager's refusal and leave the database as it was. *)
Theorem unauthenticated_caller_is_refused
        (cu : Auth.current_user_t) (slug : string) (sec : option string) :
  Auth.is_authenticated cu = false ->
  Auth.can_edit cu slug sec = false
  /\ (forall data now st,
         App.update_page_content cu slug data now st
         = (st, App.Unauthorized))
  /\ (forall form now st,
         App.create_button cu form now st = (st, App.Unauthorized)).
Proof.
  intros Hcu. unfold Auth.can_edit, App.update_page_content,
    App.create_button, App.login_required.
  rewrite Hcu. repeat split.
Qed.

Lemma unauthenticated_caller_is_refused_witness :
  Auth.can_edit Auth.AnonymousUser "rules/general-rules" None = false
  /\ Auth.can_edit
       (Auth.LoggedIn inactive_admin) "rules/general-rules" None = false.
Proof.
  split.
  - exact (proj1 (unauthenticated_caller_is_refused
                    Auth.AnonymousUser "rules/general-rules" None eq_refl)).
  - exact (proj1 (unauthenticated_caller_is_refused
                    (Auth.LoggedIn inactive_admin)
                    "rules/general-rules" None eq_refl)).
Defined.
End Permission.

(** ** Lazy creation of pages *)

Section Pages.
Local Open Scope list_scope.

Lemma find_snoc {A} (f : A -> bool) (l : list A) (x : A) :
  find f (l ++ [x])
  = match find f l with
    | Some y => Some y
    | None => if f x then Some x else None
    end.
Proof.
  induction l as [|y l IH]; simpl; [reflexivity|].
  now destruct (f y).
Qed.

Lemma render_keeps_db (dflt : string) (st : Db.t) (p : Page.t) :
  fst (App.render dflt st p) = st.
Proof.
  unfold App.render.
  destruct (Page.get_content p) as [[| | | | |]|]; reflexivity.
Qed.

Lemma find_page_after_add (st : Db.t) (p : Page.t) (slug : string) :
  Page.slug p = slug ->
  Db.find_page st slug = None ->
  Db.find_page (Db.add_page p st) slug = Some p.
Proof.
  unfold Db.find_page, Db.add_page. simpl. intros <- H.
  now rewrite find_snoc, H, String.eqb_refl.
Qed.












Example humanize_examples :
  App.humanize "general-rules" = "General Rules"
  /\ App.humanize "teams/faf-live" = "Teams/Faf Live"
  /\ App.humanize "1v1-guide" = "1V1 Guide"
  /\ App.humanize "FAF-client" = "Faf Client"
  /\ App.humanize ueber_uns = ueber_uns_title
  /\ App.humanize (String "223"%char "-x") = "Ss X"
  /\ humanize_in_range (String "181"%char "m") = false
  /\ humanize_in_range (String "m" (String "181"%char EmptyString)) = true.
Proof. repeat split. Qed.
End Pages.

(** ** Buttons and blocks: [create_button] *)

Section Buttons.
Local Open Scope list_scope.

(** What the aggregate query returns, in terms of the block's positions. *)
Lemma max_position_fold (bid : Z) (l : list Button.t) (acc : option Z) :
  let ps := map Button.position
                (filter (fun b => Button.content_block_id b =? bid) l) in
  let r :=
    fold_left
      (fun acc b =>
         if Button.content_block_id b =? bid then
           match acc with
           | None => Some (Button.position b)
           | Some m => Some (Z.max m (Button.position b))
           end
         else acc) l acc in
  (ps = [] -> r = acc)
  /\ (forall m, r = Some m ->
                (forall x, In x ps -> x <= m)
                /\ (forall a, acc = Some a -> a <= m)
                /\ (In m ps \/ acc = Some m))
  /\ (r = None -> acc = None /\ ps = []).
Proof.
  revert acc. induction l as [|b l IH]; intros acc; simpl.
  - split; [tauto|]. split; [|tauto].
    intros m ->. split; [intros x []|]. split; [|now right].
    intros a [= ->]. lia.
  - destruct (Button.content_block_id b =? bid); simpl; [|apply IH].
    set (acc' := match acc with
                 | None => Some (Button.position b)
                 | Some m => Some (Z.max m (Button.position b))
                 end).
    destruct (IH acc') as (_ & Hmax & Hnone).
    split; [discriminate|]. split.
    + intros m Hm. destruct (Hmax m Hm) as (Hub & Hacc & Hin).
      assert (Hb : Button.position b <= m).
      { subst acc'. destruct acc as [a0|].
        - specialize (Hacc (Z.max a0 (Button.position b)) eq_refl). lia.
        - exact (Hacc _ eq_refl). }
      repeat split.
      * intros x [<- | Hx]; [exact Hb | now apply Hub].
      * intros a ->. specialize (Hacc (Z.max a (Button.position b)) eq_refl).
        lia.
      * destruct Hin as [Hin | Hin]; [left; now right|].
        subst acc'. destruct acc as [a|].
        -- injection Hin as <-.
           destruct (Z.max_spec a (Button.position b)) as [[_ ->] | [_ ->]];
             [left; now left | now right].
        -- injection Hin as <-. left; now left.
    + intros Hr. destruct (Hnone Hr) as [Hacc' _].
      subst acc'. now destruct acc.
Qed.

Lemma next_position_spec (st : Db.t) (bid : Z) :
  (block_positions st bid = [] ->
   Db.or_zero (Db.max_position st bid) + 1 = 1)
  /\ (forall m,
         In m (block_positions st bid) ->
         (forall x, In x (block_positions st bid) -> x <= m) ->
         Db.or_zero (Db.max_position st bid) + 1 = m + 1).
Proof.
  unfold block_positions, Db.max_position.
  destruct (max_position_fold bid (Db.buttons st) None)
    as (Hempty & Hsome & Hnone).
  simpl in Hempty, Hsome, Hnone. split.
  - intros Hps. now rewrite (Hempty Hps).
  - intros m Hin Hub.
    destruct (fold_left _ (Db.buttons st) None) as [m'|] eqn:Hr.
    + destruct (Hsome m' eq_refl) as (Hub' & _ & [Hin' | Habs]);
        [|discriminate].
      assert (m' = m) as -> by (specialize (Hub _ Hin');
                                specialize (Hub' _ Hin); lia).
      unfold Db.or_zero. destruct (Z.eqb_spec m 0); lia.
    + destruct (Hnone eq_refl) as [_ Hps]. rewrite Hps in Hin.
      destruct Hin.
Qed.

Lemma find_block_after_add (st : Db.t) (b : ContentBlock.t) (pid : Z)
      (sec : string) :
  ContentBlock.page_id b = pid ->
  ContentBlock.section_id b = Some sec ->
  Db.find_block st pid sec = None ->
  Db.find_block (Db.add_block b st) pid sec = Some b.
Proof.
  unfold Db.find_block, Db.add_block. simpl. intros Hp Hs H.
  rewrite find_snoc, H, Hp, Hs, Z.eqb_refl. simpl.
  now rewrite String.eqb_refl.
Qed.

(** The shape of one run of the view: the page and the block it resolves
    and the button it appends. *)
Lemma create_button_view_shape (form : App.button_form) (now : Z)
      (st : Db.t) :
  let slug := App.form_get (App.f_page_slug form) "home" in
  let sec := App.form_get (App.f_section_id form) "main-nav" in
  let pid := target_page_id st slug in
  exists st2 pg blk b,
    App.create_button_view form now st
    = (Db.add_button b st2, App.JsonSuccess (Some (Button.id b)))
    /\ Db.buttons st2 = Db.buttons st
    /\ Db.find_page st2 slug = Some pg /\ Page.id pg = pid
    /\ Db.find_block st2 pid sec = Some blk
    /\ match Db.find_block st pid sec with
       | Some found => blk = found
                       /\ Db.content_blocks st2 = Db.content_blocks st
       | None => Db.content_blocks st2 = Db.content_blocks st ++ [blk]
                 /\ ContentBlock.block_type blk = "button_grid"%string
                 /\ ContentBlock.page_id blk = pid
                 /\ ContentBlock.section_id blk = Some sec
       end
    /\ Button.content_block_id b = ContentBlock.id blk
    /\ Button.position b
       = Db.or_zero (Db.max_position st (ContentBlock.id blk)) + 1.
Proof.
  intros slug sec pid. unfold App.create_button_view.
  fold slug sec. subst pid. unfold target_page_id.
  destruct (Db.find_page st slug) as [pg|] eqn:Hpage.
  - destruct (Db.find_block st (Page.id pg) sec) as [blk|] eqn:Hblock.
    + eexists st, pg, blk, _. rewrite Hblock.
      repeat split; try reflexivity; assumption.
    + eexists (Db.add_block _ st), pg, _, _.
      split; [reflexivity|]. split; [reflexivity|].
      split; [exact Hpage|]. split; [reflexivity|].
      split; [now apply find_block_after_add|].
      repeat split.
  - set (pg := App.new_page st slug (App.humanize slug) None now).
    change (Db.find_block (Db.add_page pg st) (Page.id pg) sec)
      with (Db.find_block st (Page.id pg) sec).
    change (Db.next_id (map Page.id (Db.pages st))) with (Page.id pg).
    destruct (Db.find_block st (Page.id pg) sec) as [blk|] eqn:Hblock.
    + eexists (Db.add_page pg st), pg, blk, _.
      split; [reflexivity|]. split; [reflexivity|].
      split; [now apply find_page_after_add|]. split; [reflexivity|].
      split; [exact Hblock|]. repeat split.
    + eexists (Db.add_block _ (Db.add_page pg st)), pg, _, _.
      split; [reflexivity|]. split; [reflexivity|].
      split; [now apply find_page_after_add|].
      split; [reflexivity|].
      split; [now apply find_block_after_add|].
      repeat split.
Qed.

Lemma block_positions_add_button (st : Db.t) (b : Button.t) (bid : Z) :
  Button.content_block_id b = bid ->
  block_positions (Db.add_button b st) bid
  = block_positions st bid ++ [Button.position b].
Proof.
  intros Hb. unfold block_positions, Db.add_button. simpl.
  rewrite filter_app, map_app. simpl. now rewrite Hb, Z.eqb_refl.
Qed.

(** C7.  For an authenticated caller, [create_button] appends one button
    and leaves every existing button as it was.  The new button's
    position is 1 when its block held no button, and [m + 1] when [m] is
    the largest position among the block's buttons (so 6 when that
    maximum is 5).  A second button for the same page and section lands
    in the same block one position further: 1 then 2 in a block that
    started empty. *)
Theorem button_appended_at_max_position_plus_one
        (cu : Auth.current_user_t) (form form' : App.button_form)
        (now now' : Z) (st : Db.t) :
  Auth.is_authenticated cu = true ->
  App.f_page_slug form' = App.f_page_slug form ->
  App.f_section_id form' = App.f_section_id form ->
  exists b b2,
    let st1 := fst (App.create_button cu form now st) in
    let st2 := fst (App.create_button cu form' now' st1) in
    Db.buttons st1 = Db.buttons st ++ [b]
    /\ snd (App.create_button cu form now st)
       = App.JsonSuccess (Some (Button.id b))
    /\ (block_positions st (Button.content_block_id b) = [] ->
        Button.position b = 1)
    /\ (forall m,
           In m (block_positions st (Button.content_block_id b)) ->
           (forall x, In x (block_positions st (Button.content_block_id b))
                      -> x <= m) ->
           Button.position b = m + 1)
    /\ (In 5 (block_positions st (Button.content_block_id b)) ->
        (forall x, In x (block_positions st (Button.content_block_id b))
                   -> x <= 5) ->
        Button.position b = 6)
    /\ Db.buttons st2 = Db.buttons st ++ [b; b2]
    /\ Button.content_block_id b2 = Button.content_block_id b
    /\ Button.position b2 = Button.position b + 1
    /\ (block_positions st (Button.content_block_id b) = [] ->
        Button.position b = 1 /\ Button.position b2 = 2).
Proof.
  intros Hcu Hslug Hsec.
  unfold App.create_button, App.login_required. rewrite Hcu.
  destruct (create_button_view_shape form now st)
    as (sa & pg & blk & b & Hrun & Hbtn & Hpg & Hpid & Hblk & _ & Hcb & Hpos).
  rewrite Hrun. cbn [fst snd].
  destruct (create_button_view_shape form' now' (Db.add_button b sa))
    as (sb & pg' & blk' & b2 & Hrun' & Hbtn' & _ & _ & _ & Hsame & Hcb'
        & Hpos').
  rewrite Hslug, Hsec in Hsame.
  assert (Htarget :
            target_page_id (Db.add_button b sa)
                           (App.form_get (App.f_page_slug form) "home")
            = target_page_id st
                             (App.form_get (App.f_page_slug form) "home")).
  { unfold target_page_id at 1.
    change (Db.find_page (Db.add_button b sa)
                         (App.form_get (App.f_page_slug form) "home"))
      with (Db.find_page sa (App.form_get (App.f_page_slug form) "home")).
    now rewrite Hpg. }
  rewrite Htarget in Hsame.
  change (Db.find_block (Db.add_button b sa)) with (Db.find_block sa)
    in Hsame.
  rewrite Hblk in Hsame. destruct Hsame as [-> _].
  rewrite Hrun'. cbn [fst].
  destruct (next_position_spec st (ContentBlock.id blk))
    as [Hfirst Hnext].
  rewrite <- Hcb in Hfirst, Hnext.
  assert (Hb2 : Button.position b2 = Button.position b + 1).
  { rewrite Hpos'.
    destruct (next_position_spec (Db.add_button b sa) (ContentBlock.id blk))
      as [_ Hnext'].
    apply Hnext'.
    - rewrite (block_positions_add_button sa b _ Hcb).
      apply in_or_app. right. now left.
    - intros x. rewrite (block_positions_add_button sa b _ Hcb).
      intros Hx. apply in_app_or in Hx as [Hx | [<- | []]]; [|lia].
      assert (Hold : block_positions sa (ContentBlock.id blk)
                     = block_positions st (ContentBlock.id blk))
        by (unfold block_positions; now rewrite Hbtn).
      rewrite Hold in Hx. rewrite Hpos.
      destruct (max_position_fold (ContentBlock.id blk) (Db.buttons st) None)
        as (_ & Hsome & Hnone).
      simpl in Hsome, Hnone. unfold Db.max_position.
      destruct (fold_left _ (Db.buttons st) None) as [m|] eqn:Hr.
      + destruct (Hsome m eq_refl) as (Hub & _).
        specialize (Hub x Hx). unfold Db.or_zero.
        destruct (Z.eqb_spec m 0); lia.
      + destruct (Hnone eq_refl) as [_ Hps].
        unfold block_positions in Hx. rewrite Hps in Hx. destruct Hx. }
  rewrite <- Hcb in Hpos.
  exists b, b2. cbn zeta.
  split; [simpl; now rewrite Hbtn|]. split; [reflexivity|].
  split; [intros He; rewrite Hpos; now apply Hfirst|].
  split; [intros m Hin Hub; rewrite Hpos; now apply Hnext|].
  split; [intros Hin Hub; rewrite Hpos; now apply (Hnext 5)|].
  split; [simpl; rewrite Hbtn'; simpl;
          now rewrite Hbtn, <- List.app_assoc|].
  split; [congruence|]. split; [exact Hb2|].
  intros He. rewrite Hb2, Hpos, (Hfirst He). split; reflexivity.
Qed.

(** C8.  [create_button] looks its block up by page and section only.
    When the page has a block for the section, whatever that block's
    [block_type], the first such block is reused: the table of blocks is
    left exactly as it was and the new button points to that block.  A
    block, of type [button_grid], is created only when the page has no
    block for the section. *)
Theorem block_lookup_by_page_and_section_only
        (cu : Auth.current_user_t) (form : App.button_form) (now : Z)
        (st : Db.t) :
  Auth.is_authenticated cu = true ->
  let slug := App.form_get (App.f_page_slug form) "home" in
  let sec := App.form_get (App.f_section_id form) "main-nav" in
  let pid := target_page_id st slug in
  let st1 := fst (App.create_button cu form now st) in
  (forall existing,
      In existing (Db.content_blocks st) ->
      ContentBlock.page_id existing = pid ->
      ContentBlock.section_id existing = Some sec ->
      exists reused b,
        Db.find_block st pid sec = Some reused
        /\ In reused (Db.content_blocks st)
        /\ ContentBlock.page_id reused = pid
        /\ ContentBlock.section_id reused = Some sec
        /\ Db.content_blocks st1 = Db.content_blocks st
        /\ Db.buttons st1 = Db.buttons st ++ [b]
        /\ Button.content_block_id b = ContentBlock.id reused)
  /\ ((forall blk,
          In blk (Db.content_blocks st) ->
          ~ (ContentBlock.page_id blk = pid
             /\ ContentBlock.section_id blk = Some sec)) ->
      exists created b,
        Db.content_blocks st1 = Db.content_blocks st ++ [created]
        /\ ContentBlock.block_type created = "button_grid"%string
        /\ ContentBlock.page_id created = pid
        /\ ContentBlock.section_id created = Some sec
        /\ Db.buttons st1 = Db.buttons st ++ [b]
        /\ Button.content_block_id b = ContentBlock.id created).
Proof.
  intros Hcu slug sec pid st1. subst st1.
  unfold App.create_button, App.login_required. rewrite Hcu.
  destruct (create_button_view_shape form now st)
    as (sa & pg & blk & b & Hrun & Hbtn & _ & _ & _ & Hcase & Hcb & _).
  fold slug sec pid in Hcase. rewrite Hrun. cbn [fst].
  assert (Hkey : forall blk0,
             (ContentBlock.page_id blk0 =? pid)
             && Db.option_string_eqb (ContentBlock.section_id blk0)
                                     (Some sec) = true
             <-> ContentBlock.page_id blk0 = pid
                 /\ ContentBlock.section_id blk0 = Some sec).
  { intros blk0. rewrite andb_true_iff, Z.eqb_eq.
    destruct (ContentBlock.section_id blk0) as [s0|]; simpl.
    - rewrite String.eqb_eq. split; intros [H1 H2]; split; congruence.
    - split; intros [_ H2]; discriminate. }
  split.
  - intros existing Hin Hp Hs.
    destruct (Db.find_block st pid sec) as [found|] eqn:Hfind.
    + destruct Hcase as [-> Hblocks].
      unfold Db.find_block in Hfind.
      destruct (find_some _ _ Hfind) as [Hfin Hfkey].
      apply Hkey in Hfkey as [Hfp Hfs].
      exists found, b. repeat split; try assumption.
      simpl. now rewrite Hbtn.
    + exfalso. unfold Db.find_block in Hfind.
      pose proof (find_none _ _ Hfind existing Hin) as Hno.
      assert (Hyes := proj2 (Hkey existing) (conj Hp Hs)). congruence.
  - intros Hnone.
    destruct (Db.find_block st pid sec) as [found|] eqn:Hfind.
    + exfalso. unfold Db.find_block in Hfind.
      destruct (find_some _ _ Hfind) as [Hfin Hfkey].
      apply Hkey in Hfkey. exact (Hnone found Hfin Hfkey).
    + destruct Hcase as (Hblocks & Htype & Hp & Hs).
      exists blk, b. repeat split; try assumption.
      simpl. now rewrite Hbtn.
Qed.

Lemma button_appended_at_max_position_plus_one_witness :
  (exists b b2,
      Db.buttons
        (fst (App.create_button (Auth.LoggedIn plain_user) default_form 11
                (fst (App.create_button (Auth.LoggedIn plain_user)
                                        default_form 10 seeded_db))))
      = Db.buttons seeded_db ++ [b; b2]
      /\ Button.position b = 6 /\ Button.position b2 = 7)
  /\ (exists b b2,
         Db.buttons
           (fst (App.create_button (Auth.LoggedIn plain_user) default_form 11
                   (fst (App.create_button (Auth.LoggedIn plain_user)
                                           default_form 10 empty_db))))
         = [b; b2]
         /\ Button.position b = 1 /\ Button.position b2 = 2).
Proof.
  split.
  - destruct (button_appended_at_max_position_plus_one
                (Auth.LoggedIn plain_user) default_form default_form 10 11
                seeded_db eq_refl eq_refl eq_refl)
      as (b & b2 & Hb & _ & _ & _ & Hsix & Hboth & _ & Hb2 & _).
    cbv in Hb. injection Hb as <-.
    eexists. exists b2. split; [exact Hboth|].
    assert (H6 := Hsix ltac:(unfold block_positions; simpl; tauto)
                       ltac:(unfold block_positions; simpl;
                             intros x Hx; intuition lia)).
    split; [exact H6 | rewrite Hb2, H6; reflexivity].
  - destruct (button_appended_at_max_position_plus_one
                (Auth.LoggedIn plain_user) default_form default_form 10 11
                empty_db eq_refl eq_refl eq_refl)
      as (b & b2 & Hb & _ & _ & _ & _ & Hboth & _ & _ & Hempty).
    cbv in Hb. injection Hb as <-.
    eexists. exists b2. split; [exact Hboth|].
    exact (Hempty eq_refl).
Defined.

Lemma block_lookup_by_page_and_section_only_witness :
  Db.find_block seeded_db 1 "main-nav" = Some text_block
  /\ ContentBlock.block_type text_block = "text"%string
  /\ Db.content_blocks
       (fst (App.create_button (Auth.LoggedIn plain_user) default_form 10
                               seeded_db))
     = [text_block]
  /\ exists created,
       Db.content_blocks
         (fst (App.create_button (Auth.LoggedIn plain_user) default_form 10
                                 empty_db))
       = [created]
       /\ ContentBlock.block_type created = "button_grid"%string.
Proof.
  split; [reflexivity|]. split; [reflexivity|]. split.
  - destruct (proj1 (block_lookup_by_page_and_section_only
                       (Auth.LoggedIn plain_user) default_form 10 seeded_db
                       eq_refl)
                    text_block (or_introl eq_refl) eq_refl eq_refl)
      as (reused & b & _ & _ & _ & _ & Hblocks & _).
    exact Hblocks.
  - destruct (proj2 (block_lookup_by_page_and_section_only
                       (Auth.LoggedIn plain_user) default_form 10 empty_db
                       eq_refl))
      as (created & b & Hblocks & Htype & _).
    + intros blk [].
    + exists created. split; [exact Hblocks | exact Htype].
Defined.
End Buttons.

(** ** The json encoder and decoder *)

Section JsonFacts.
Import Json JsonDoc Py.
Local Open Scope string_scope.

Lemma append_assoc (a b c : string) : (a ++ b) ++ c = a ++ (b ++ c).
Proof. induction a as [|x a IH]; simpl; [reflexivity | now rewrite IH]. Qed.

Lemma append_nil_r (a : string) : a ++ EmptyString = a.
Proof. induction a as [|x a IH]; simpl; [reflexivity | now rewrite IH]. Qed.

(** *** Strings *)

Lemma scanstring_escape_char (c : ascii) (tail : string) :
  scanstring (escape_char c ++ tail) = cons_char c (scanstring tail).
Proof.
  destruct c as [[|] [|] [|] [|] [|] [|] [|] [|]]; reflexivity.
Qed.

Lemma scanstring_escape (s rest : string) :
  scanstring (escape s ++ String dquote rest) = Ok (s, rest).
Proof.
  induction s as [|c s IH]; simpl.
  - reflexivity.
  - now rewrite append_assoc, scanstring_escape_char, IH.
Qed.

Lemma encode_str_unfold (s rest : string) :
  encode_str s ++ rest = String dquote (escape s ++ String dquote rest).
Proof. unfold encode_str. simpl. now rewrite append_assoc. Qed.

(** *** Integers *)

Lemma span_digits_uint (u : Decimal.uint) (rest : string) :
  ends_number rest = true ->
  span_digits (NilEmpty.string_of_uint u ++ rest)
  = (NilEmpty.string_of_uint u, rest).
Proof.
  intros Hrest. induction u; simpl; try (now rewrite IHu).
  destruct rest as [|c rest]; simpl; [reflexivity|].
  simpl in Hrest. unfold continues_number in Hrest.
  destruct (is_digit c); [discriminate | reflexivity].
Qed.

Lemma float_follows_ends_number (rest : string) :
  ends_number rest = true -> float_follows rest = false.
Proof.
  destruct rest as [|c [|d rest]]; simpl; try reflexivity.
  unfold continues_number. intros H.
  destruct (Ascii.eqb c "."); [now rewrite !orb_true_r in H|].
  destruct (Ascii.eqb c "e"); [now rewrite !orb_true_r in H|].
  destruct (Ascii.eqb c "E"); [now rewrite !orb_true_r in H|].
  reflexivity.
Qed.

Lemma to_uint_leading_digit (p : positive) :
  exists c s,
    NilEmpty.string_of_uint (Pos.to_uint p) = String c s
    /\ is_digit c = true /\ Ascii.eqb c "0" = false
    /\ exists u, s = NilEmpty.string_of_uint u.
Proof.
  assert (Hnorm : Decimal.unorm (Pos.to_uint p) = Pos.to_uint p).
  { rewrite <- (DecimalPos.Unsigned.to_of (Pos.to_uint p)).
    now rewrite DecimalPos.Unsigned.of_to. }
  pose proof (DecimalPos.Unsigned.to_uint_nonzero p) as Hnz.
  destruct (Pos.to_uint p) as [|u|u|u|u|u|u|u|u|u|u] eqn:Hu;
    try (simpl; do 2 eexists; repeat split; eexists; reflexivity).
  - discriminate.
  - exfalso. rewrite DecimalFacts.unorm_D0 in Hnorm.
    unfold Decimal.unorm in Hnorm.
    pose proof (DecimalFacts.nzhead_nonzero u u) as Hhead.
    destruct (Decimal.nzhead u); congruence.
Qed.

Lemma scan_number_encode_int (z : Z) (rest : string) :
  ends_number rest = true ->
  scan_number (encode_int z ++ rest) = Ok (JInt z, rest).
Proof.
  intros Hrest. unfold scan_number, encode_int.
  assert (Hparse : NilZero.int_of_string (NilZero.string_of_int (Z.to_int z))
                   = Some (Z.to_int z)).
  { apply NilZero.isi; destruct z; try discriminate;
      simpl; intros [= H]; now apply (DecimalPos.Unsigned.to_uint_nonnil p). }
  assert (Hmatch : match_integer (NilZero.string_of_int (Z.to_int z) ++ rest)
                   = Some (NilZero.string_of_int (Z.to_int z), rest)).
  { destruct z as [|p|p]; [reflexivity| |].
    - destruct (to_uint_leading_digit p) as (c & s & Hs & Hd & Hz & u & ->).
      simpl. unfold NilZero.string_of_uint.
      pose proof (DecimalPos.Unsigned.to_uint_nonnil p) as Hnn.
      destruct (Pos.to_uint p) eqn:Hu; [congruence| | | | | | | | | |];
        rewrite Hs; unfold match_integer; simpl;
        (destruct (Ascii.eqb c "-") eqn:Hminus;
         [apply Ascii.eqb_eq in Hminus; subst c; discriminate|]);
        rewrite Hz, Hd, (span_digits_uint u rest Hrest); reflexivity.
    - destruct (to_uint_leading_digit p) as (c & s & Hs & Hd & Hz & u & ->).
      simpl. unfold NilZero.string_of_uint.
      pose proof (DecimalPos.Unsigned.to_uint_nonnil p) as Hnn.
      destruct (Pos.to_uint p) eqn:Hu; [congruence| | | | | | | | | |];
        rewrite Hs; unfold match_integer; simpl;
        rewrite Hz, Hd, (span_digits_uint u rest Hrest); reflexivity. }
  rewrite Hmatch, (float_follows_ends_number rest Hrest), Hparse.
  now rewrite DecimalZ.of_to.
Qed.

(** *** Induction on values, through the lists they nest *)

Lemma value_ind_nested (P : value -> Prop) :
  P JNull ->
  (forall b, P (JBool b)) ->
  (forall z, P (JInt z)) ->
  (forall s, P (JStr s)) ->
  (forall l, Forall P l -> P (JList l)) ->
  (forall d, Forall (fun kv => P (snd kv)) d -> P (JDict d)) ->
  forall v, P v.
Proof.
  intros HN HB HI HS HL HD. fix IH 1. intros [|b|z|s|l|d].
  - exact HN.
  - apply HB.
  - apply HI.
  - apply HS.
  - apply HL. revert l. fix IHl 1. intros [|x l].
    + constructor.
    + constructor; [apply IH | apply IHl].
  - apply HD. revert d. fix IHd 1. intros [|[k x] d].
    + constructor.
    + constructor; [apply IH | apply IHd].
Qed.

Lemma dumps_list (l : list value) : dumps (JList l) = "[" ++ dump_items l.
Proof. reflexivity. Qed.

Lemma dumps_dict (d : list (string * value)) :
  dumps (JDict d) = "{" ++ dump_pairs d.
Proof. reflexivity. Qed.

Lemma size_list (l : list value) : size (JList l) = S (items_size l).
Proof. reflexivity. Qed.

Lemma size_dict (d : list (string * value)) :
  size (JDict d) = S (pairs_size d).
Proof. reflexivity. Qed.

Lemma unique_keys_list (l : list value) :
  unique_keys (JList l) <-> Forall unique_keys l.
Proof.
  simpl. induction l as [|x l IH]; split; intros H.
  - constructor.
  - exact I.
  - destruct H as [Hx Hl]. constructor; [exact Hx | now apply IH].
  - inversion H; subst. split; [assumption | now apply IH].
Qed.

Lemma unique_keys_dict (d : list (string * value)) :
  unique_keys (JDict d)
  <-> NoDup (map fst d) /\ Forall (fun kv => unique_keys (snd kv)) d.
Proof.
  simpl. apply and_iff_compat_l.
  induction d as [|[k x] d IH]; split; intros H.
  - constructor.
  - exact I.
  - destruct H as [Hx Hd]. constructor; [exact Hx | now apply IH].
  - inversion H; subst. split; [assumption | now apply IH].
Qed.

(** *** The first character of an encoded value *)

Lemma starts_value_facts (c : ascii) :
  starts_value c = true ->
  is_ws c = false /\ Ascii.eqb c "]" = false /\ Ascii.eqb c "}" = false.
Proof.
  destruct c as [[|] [|] [|] [|] [|] [|] [|] [|]];
    intros H; try discriminate H; repeat split.
Qed.

Lemma encode_int_head (z : Z) :
  exists c s,
    encode_int z = String c s
    /\ (is_digit c || Ascii.eqb c "-") = true.
Proof.
  unfold encode_int. destruct z as [|p|p]; simpl.
  - now exists "0"%char, EmptyString.
  - destruct (to_uint_leading_digit p) as (c & s & Hs & Hd & _).
    exists c, s. unfold NilZero.string_of_uint.
    pose proof (DecimalPos.Unsigned.to_uint_nonnil p) as Hnn.
    destruct (Pos.to_uint p); [congruence| | | | | | | | | |];
      (split; [exact Hs | now rewrite Hd]).
  - now eexists "-"%char, _.
Qed.

Lemma dumps_head (v : value) :
  exists c s, dumps v = String c s /\ starts_value c = true.
Proof.
  destruct v as [|[|]|z|s|l|d].
  - now exists "n"%char, "ull".
  - now exists "t"%char, "rue".
  - now exists "f"%char, "alse".
  - destruct (encode_int_head z) as (c & s & Hs & Hc).
    exists c, s. split; [exact Hs|]. unfold starts_value.
    apply orb_true_iff in Hc as [-> | ->]; [reflexivity|].
    now rewrite orb_true_r.
  - now eexists dquote, _.
  - rewrite dumps_list. now eexists "["%char, _.
  - rewrite dumps_dict. now eexists "{"%char, _.
Qed.

Lemma skip_ws_dumps (v : value) (rest : string) :
  skip_ws (dumps v ++ rest) = dumps v ++ rest.
Proof.
  destruct (dumps_head v) as (c & s & -> & Hc).
  apply starts_value_facts in Hc as (Hws & _). simpl. now rewrite Hws.
Qed.

(** *** One step of the decoder, by the first character *)

Lemma drop_app (a b : string) : drop (String.length a) (a ++ b) = b.
Proof.
  unfold drop. rewrite length_app.
  replace (String.length a + String.length b - String.length a)%nat
    with (String.length b) by lia.
  now rewrite substring_tail_app, substring_whole.
Qed.

Lemma scan_once_number (fuel : nat) (c : ascii) (s : string) :
  (is_digit c || Ascii.eqb c "-") = true ->
  scan_once (S fuel) (String c s) = scan_number (String c s).
Proof.
  destruct c as [[|] [|] [|] [|] [|] [|] [|] [|]];
    intros H; try discriminate H; reflexivity.
Qed.

Lemma scan_once_list (fuel : nat) (s : string) :
  scan_once (S fuel) (String "[" s)
  = match skip_ws s with
    | EmptyString => Err JSONDecodeError
    | String c1 r1 =>
        if Ascii.eqb c1 "]" then Ok (JList [], r1)
        else let* (vs, r2) := parse_items fuel (String c1 r1) in
             Ok (JList vs, r2)
    end.
Proof. reflexivity. Qed.

Lemma scan_once_dict (fuel : nat) (s : string) :
  scan_once (S fuel) (String "{" s)
  = match skip_ws s with
    | EmptyString => Err JSONDecodeError
    | String c1 r1 =>
        if Ascii.eqb c1 "}" then Ok (JDict [], r1)
        else if Ascii.eqb c1 dquote then
          let* (pairs, r2) := parse_pairs fuel r1 in
          Ok (JDict (dict_of_pairs pairs), r2)
        else Err JSONDecodeError
    end.
Proof. reflexivity. Qed.

Lemma parse_items_step (fuel : nat) (s : string) :
  parse_items (S fuel) s
  = let* (v, r) := scan_once fuel s in
    match skip_ws r with
    | EmptyString => Err JSONDecodeError
    | String c r1 =>
        if Ascii.eqb c "]" then Ok ([v], r1)
        else if Ascii.eqb c "," then
          let* (vs, r2) := parse_items fuel (skip_ws r1) in
          Ok (v :: vs, r2)
        else Err JSONDecodeError
    end.
Proof. reflexivity. Qed.

Lemma parse_pairs_step (fuel : nat) (s : string) :
  parse_pairs (S fuel) s
  = let* (key, r) := scanstring s in
    match skip_ws r with
    | EmptyString => Err JSONDecodeError
    | String c r1 =>
        if Ascii.eqb c ":" then
          let* (v, r2) := scan_once fuel (skip_ws r1) in
          match skip_ws r2 with
          | EmptyString => Err JSONDecodeError
          | String c2 r3 =>
              if Ascii.eqb c2 "}" then Ok ([(key, v)], r3)
              else if Ascii.eqb c2 "," then
                match skip_ws r3 with
                | EmptyString => Err JSONDecodeError
                | String c3 r4 =>
                    if Ascii.eqb c3 dquote then
                      let* (ps, r5) := parse_pairs fuel r4 in
                      Ok ((key, v) :: ps, r5)
                    else Err JSONDecodeError
                end
              else Err JSONDecodeError
          end
        else Err JSONDecodeError
    end.
Proof. reflexivity. Qed.

(** *** Lists *)

Lemma parse_items_last (fuel : nat) (s : string) (x : value)
      (rest : string) :
  scan_once fuel s = Ok (x, "]" ++ rest) ->
  parse_items (S fuel) s = Ok ([x], rest).
Proof. intros H. rewrite parse_items_step, H. reflexivity. Qed.

Lemma parse_items_more (fuel : nat) (s : string) (x : value)
      (tail : string) :
  scan_once fuel s = Ok (x, ", " ++ tail) ->
  parse_items (S fuel) s
  = let* (vs, r2) := parse_items fuel (skip_ws tail) in Ok (x :: vs, r2).
Proof. intros H. rewrite parse_items_step, H. reflexivity. Qed.

Lemma dump_items_cons (x : value) (l : list value) (rest : string) :
  dump_items (x :: l) ++ rest
  = dumps x ++ match l with
               | [] => "]" ++ rest
               | _ :: _ => ", " ++ (dump_items l ++ rest)
               end.
Proof.
  destruct l as [|y l]; cbn [dump_items]; now rewrite !append_assoc.
Qed.

Lemma skip_ws_dump_items (x : value) (l : list value) (rest : string) :
  skip_ws (dump_items (x :: l) ++ rest) = dump_items (x :: l) ++ rest.
Proof. rewrite dump_items_cons. apply skip_ws_dumps. Qed.

Lemma parse_items_dump (l : list value) :
  Forall decodes l ->
  l <> [] ->
  forall fuel rest,
    (items_size l <= fuel)%nat ->
    parse_items fuel (dump_items l ++ rest) = Ok (l, rest).
Proof.
  induction l as [|x l IH]; intros Hall Hne fuel rest Hfuel; [congruence|].
  inversion Hall as [|? ? Hx Hl]; subst.
  cbn [items_size] in Hfuel. destruct fuel as [|fuel]; [lia|].
  rewrite dump_items_cons. destruct l as [|y l].
  - apply parse_items_last. apply Hx; [lia | reflexivity].
  - rewrite (parse_items_more fuel _ x (dump_items (y :: l) ++ rest)).
    + rewrite skip_ws_dump_items, IH; [reflexivity | exact Hl | discriminate|].
      lia.
    + apply Hx; [lia | reflexivity].
Qed.

(** *** Dicts *)

Lemma dict_set_fresh (k : string) (v : value) (d : list (string * value)) :
  ~ In k (map fst d) -> dict_set k v d = (d ++ [(k, v)])%list.
Proof.
  induction d as [|[k' v'] d IH]; simpl; intros Hk; [reflexivity|].
  destruct (String.eqb_spec k' k) as [->|Hne]; [tauto|].
  rewrite IH; [reflexivity | tauto].
Qed.

Lemma dict_of_pairs_from (d acc : list (string * value)) :
  NoDup (map fst (acc ++ d)%list) ->
  fold_left (fun d kv => dict_set (fst kv) (snd kv) d) d acc
  = (acc ++ d)%list.
Proof.
  revert acc. induction d as [|[k v] d IH]; intros acc Hnd; simpl.
  - now rewrite List.app_nil_r.
  - rewrite dict_set_fresh.
    + rewrite IH; rewrite <- List.app_assoc; [reflexivity | exact Hnd].
    + rewrite map_app in Hnd. simpl in Hnd.
      apply NoDup_remove_2 in Hnd. intros Hin. apply Hnd.
      apply in_or_app. now left.
Qed.

Lemma dict_of_pairs_unique (d : list (string * value)) :
  NoDup (map fst d) -> dict_of_pairs d = d.
Proof. intros H. unfold dict_of_pairs. now rewrite dict_of_pairs_from. Qed.

Lemma dump_pairs_cons (k : string) (x : value) (r : list (string * value)) :
  dump_pairs ((k, x) :: r) = String dquote (pairs_tail k x r).
Proof.
  unfold pairs_tail. destruct r as [|kv r]; cbn [dump_pairs];
    unfold encode_str; simpl; now rewrite !append_assoc.
Qed.

Lemma pairs_tail_app (k : string) (x : value) (r : list (string * value))
      (rest : string) :
  pairs_tail k x r ++ rest
  = escape k
    ++ String dquote
         (": "
          ++ (dumps x
              ++ match r with
                 | [] => "}" ++ rest
                 | (k', x') :: r' =>
                     ", " ++ String dquote (pairs_tail k' x' r' ++ rest)
                 end)).
Proof.
  unfold pairs_tail at 1. rewrite append_assoc. simpl.
  rewrite append_assoc. destruct r as [|[k' x'] r']; [reflexivity|].
  now rewrite dump_pairs_cons.
Qed.

Lemma parse_pairs_last (fuel : nat) (k tail : string) (x : value)
      (rest : string) :
  scan_once fuel (skip_ws tail) = Ok (x, "}" ++ rest) ->
  parse_pairs (S fuel) (escape k ++ String dquote (": " ++ tail))
  = Ok ([(k, x)], rest).
Proof.
  intros H. rewrite parse_pairs_step, scanstring_escape. simpl.
  rewrite H. reflexivity.
Qed.

Lemma parse_pairs_more (fuel : nat) (k tail : string) (x : value)
      (next : string) :
  scan_once fuel (skip_ws tail) = Ok (x, ", " ++ String dquote next) ->
  parse_pairs (S fuel) (escape k ++ String dquote (": " ++ tail))
  = let* (ps, r5) := parse_pairs fuel next in Ok ((k, x) :: ps, r5).
Proof.
  intros H. rewrite parse_pairs_step, scanstring_escape. simpl.
  rewrite H. reflexivity.
Qed.

Lemma parse_pairs_dump (r : list (string * value)) :
  Forall (fun kv => decodes (snd kv)) r ->
  forall k x fuel rest,
    decodes x ->
    (pairs_size ((k, x) :: r) <= fuel)%nat ->
    parse_pairs fuel (pairs_tail k x r ++ rest) = Ok ((k, x) :: r, rest).
Proof.
  induction r as [|[k' x'] r IH]; intros Hall k x fuel rest Hx Hfuel;
    cbn [pairs_size] in Hfuel; (destruct fuel as [|fuel]; [lia|]);
    rewrite pairs_tail_app.
  - apply parse_pairs_last. rewrite skip_ws_dumps.
    apply Hx; [lia | reflexivity].
  - inversion Hall as [|? ? Hx' Hr]; subst.
    rewrite (parse_pairs_more fuel k _ x (pairs_tail k' x' r ++ rest)).
    + rewrite IH; [reflexivity | exact Hr | exact Hx' |].
      cbn [pairs_size]. lia.
    + rewrite skip_ws_dumps. apply Hx; [lia | reflexivity].
Qed.

(** *** Values *)

Lemma scan_once_literal (fuel : nat) (v : value) (rest : string) :
  v = JNull \/ v = JBool true \/ v = JBool false ->
  scan_once (S fuel) (dumps v ++ rest) = Ok (v, rest).
Proof.
  intros [-> | [-> | ->]]; (destruct rest as [|c r]; [reflexivity|]);
    simpl; unfold drop; simpl; now rewrite substring_whole.
Qed.

Lemma scan_once_dumps (v : value) : unique_keys v -> decodes v.
Proof.
  induction v as [|b|z|s|l IHl|d IHd] using value_ind_nested;
    intros Hwf fuel rest Hfuel Hrest;
    (destruct fuel as [|fuel]; [simpl in Hfuel; lia|]).
  - apply scan_once_literal. now left.
  - apply scan_once_literal. destruct b; [right; now left | right; now right].
  - change (dumps (JInt z)) with (encode_int z).
    destruct (encode_int_head z) as (c & s & Hs & Hc).
    rewrite <- (scan_number_encode_int z rest Hrest), Hs.
    now apply scan_once_number.
  - change (dumps (JStr s)) with (encode_str s).
    rewrite encode_str_unfold. simpl. now rewrite scanstring_escape.
  - apply unique_keys_list in Hwf.
    assert (Hall : Forall decodes l).
    { rewrite Forall_forall in *. intros x Hx. apply IHl; auto. }
    rewrite dumps_list, size_list in *. simpl append.
    rewrite scan_once_list. destruct l as [|x l]; [reflexivity|].
    rewrite skip_ws_dump_items.
    destruct (dumps_head x) as (c & s & Hs & Hc).
    apply starts_value_facts in Hc as (_ & Hclose & _).
    assert (Htext : dump_items (x :: l) ++ rest
                    = String c (s ++ match l with
                                     | [] => "]" ++ rest
                                     | _ :: _ => ", " ++ (dump_items l ++ rest)
                                     end)).
    { now rewrite dump_items_cons, Hs. }
    rewrite Htext, Hclose, <- Htext.
    rewrite parse_items_dump; [reflexivity | exact Hall | discriminate | lia].
  - apply unique_keys_dict in Hwf as [Hnd Hwf].
    assert (Hall : Forall (fun kv => decodes (snd kv)) d).
    { rewrite Forall_forall in *. intros kv Hkv. apply IHd; auto. }
    rewrite dumps_dict, size_dict in *. simpl append.
    rewrite scan_once_dict. destruct d as [|[k x] d]; [reflexivity|].
    rewrite dump_pairs_cons. simpl.
    inversion Hall as [|? ? Hx Hd]; subst.
    rewrite parse_pairs_dump; [|exact Hd | exact Hx | lia].
    simpl. now rewrite dict_of_pairs_unique.
Qed.

Lemma items_size_le_length (l : list value) :
  Forall (fun x => (size x <= String.length (dumps x))%nat) l ->
  (items_size l <= String.length (dump_items l))%nat.
Proof.
  induction 1 as [|x l Hx Hl IH]; [simpl; lia|].
  destruct l as [|y l].
  - cbn [dump_items items_size]. rewrite length_app. simpl. lia.
  - change (dump_items (x :: y :: l))
      with (dumps x ++ ", " ++ dump_items (y :: l)).
    rewrite !length_app. cbn [items_size] in *.
    change (String.length ", ") with 2%nat. lia.
Qed.

Lemma pairs_size_le_length (d : list (string * value)) :
  Forall (fun kv => (size (snd kv) <= String.length (dumps (snd kv)))%nat) d ->
  (pairs_size d <= String.length (dump_pairs d))%nat.
Proof.
  induction 1 as [|[k x] d Hx Hd IH]; [simpl; lia|].
  simpl in Hx. destruct d as [|kv d].
  - cbn [dump_pairs pairs_size]. rewrite !length_app. simpl. lia.
  - change (dump_pairs ((k, x) :: kv :: d))
      with (encode_str k ++ ": " ++ dumps x ++ ", " ++ dump_pairs (kv :: d)).
    rewrite !length_app. destruct kv as [k' x']. cbn [pairs_size] in *.
    change (String.length ", ") with 2%nat. lia.
Qed.

Lemma size_le_length (v : value) : (size v <= String.length (dumps v))%nat.
Proof.
  induction v as [|b|z|s|l IHl|d IHd] using value_ind_nested.
  - simpl. lia.
  - destruct b; simpl; lia.
  - destruct (dumps_head (JInt z)) as (c & s & -> & _). simpl. lia.
  - simpl. lia.
  - rewrite dumps_list, size_list. simpl String.length. apply le_n_S.
    now apply items_size_le_length.
  - rewrite dumps_dict, size_dict. simpl String.length. apply le_n_S.
    now apply pairs_size_le_length.
Qed.

Lemma loads_dumps (v : value) : unique_keys v -> loads (dumps v) = Ok v.
Proof.
  intros Hwf. unfold loads.
  rewrite <- (append_nil_r (dumps v)) at 2.
  rewrite skip_ws_dumps.
  rewrite (scan_once_dumps v Hwf (2 * String.length (dumps v) + 2)%nat
                           EmptyString).
  - reflexivity.
  - pose proof (size_le_length v). lia.
  - reflexivity.
Qed.

Lemma dumps_not_empty (v : value) : String.eqb (dumps v) EmptyString = false.
Proof. destruct (dumps_head v) as (c & s & -> & _). reflexivity. Qed.

(** *** What the decoder returns has distinct keys *)

Lemma dict_set_keys (k : string) (v : value) (d : list (string * value)) :
  map fst (dict_set k v d)
  = if existsb (String.eqb k) (map fst d) then map fst d
    else (map fst d ++ [k])%list.
Proof.
  induction d as [|[k' v'] d IH]; simpl; [reflexivity|].
  rewrite (String.eqb_sym k k').
  destruct (String.eqb k' k); simpl; [reflexivity|].
  rewrite IH. now destruct (existsb (String.eqb k) (map fst d)).
Qed.

Lemma dict_set_unique_keys (k : string) (v : value)
      (d : list (string * value)) :
  unique_keys v ->
  unique_keys (JDict d) ->
  unique_keys (JDict (dict_set k v d)).
Proof.
  intros Hv Hd. apply unique_keys_dict in Hd as [Hnd Hall].
  apply unique_keys_dict. split.
  - rewrite dict_set_keys.
    destruct (existsb (String.eqb k) (map fst d)) eqn:Hex; [exact Hnd|].
    apply NoDup_app; [exact Hnd | repeat constructor; intros [] |].
    intros x Hx [<- | []].
    assert (existsb (String.eqb k) (map fst d) = true); [|congruence].
    apply existsb_exists. exists k. split; [exact Hx | apply String.eqb_refl].
  - clear Hnd. induction d as [|[k' v'] d IH]; simpl.
    + repeat constructor. exact Hv.
    + inversion Hall as [|? ? Hv' Hd']; subst.
      destruct (String.eqb k' k); constructor; auto.
Qed.

Lemma dict_of_pairs_unique_keys (ps : list (string * value)) :
  Forall (fun kv => unique_keys (snd kv)) ps ->
  unique_keys (JDict (dict_of_pairs ps)).
Proof.
  unfold dict_of_pairs.
  assert (Hgen : forall acc,
             unique_keys (JDict acc) ->
             Forall (fun kv => unique_keys (snd kv)) ps ->
             unique_keys
               (JDict (fold_left (fun d kv => dict_set (fst kv) (snd kv) d)
                                 ps acc))).
  { induction ps as [|[k v] ps IH]; intros acc Hacc Hps; [exact Hacc|].
    inversion Hps; subst. simpl. apply IH; [|assumption].
    now apply dict_set_unique_keys. }
  apply Hgen. simpl. split; [constructor | exact I].
Qed.

Lemma scan_once_step (fuel : nat) (c : ascii) (rest : string) :
  scan_once (S fuel) (String c rest)
  = if Ascii.eqb c dquote then
      let* (str, r) := scanstring rest in Ok (JStr str, r)
    else if Ascii.eqb c "{" then scan_once (S fuel) (String "{" rest)
    else if Ascii.eqb c "[" then scan_once (S fuel) (String "[" rest)
    else if PyStr.startswith (String c rest) "null"
         then Ok (JNull, drop 4 (String c rest))
    else if PyStr.startswith (String c rest) "true"
         then Ok (JBool true, drop 4 (String c rest))
    else if PyStr.startswith (String c rest) "false"
         then Ok (JBool false, drop 5 (String c rest))
    else scan_number (String c rest).
Proof.
  destruct (Ascii.eqb c dquote) eqn:Hq; [simpl; now rewrite Hq|].
  destruct (Ascii.eqb_spec c "{") as [->|Hbrace]; [reflexivity|].
  destruct (Ascii.eqb_spec c "[") as [->|Hbracket]; [reflexivity|].
  apply Ascii.eqb_neq in Hbrace, Hbracket.
  simpl. now rewrite Hq, Hbrace, Hbracket.
Qed.

Ltac break_result H :=
  repeat (match type of H with
          | Err _ = Ok _ => discriminate H
          | context [Py.bind ?r _] =>
              let E := fresh "E" in
              destruct r as [[? ?]|?] eqn:E; cbn [Py.bind] in H
          | context [match ?x with _ => _ end] =>
              let E := fresh "E" in destruct x eqn:E
          end).

Lemma scan_number_unique_keys (s : string) (v : value) (r : string) :
  scan_number s = Ok (v, r) -> unique_keys v.
Proof.
  unfold scan_number. intros H. break_result H.
  injection H as <- _. exact I.
Qed.

Lemma decoder_unique_keys (fuel : nat) :
  (forall s v r, scan_once fuel s = Ok (v, r) -> unique_keys v)
  /\ (forall s vs r, parse_items fuel s = Ok (vs, r) ->
                     Forall unique_keys vs)
  /\ (forall s ps r, parse_pairs fuel s = Ok (ps, r) ->
                     Forall (fun kv => unique_keys (snd kv)) ps).
Proof.
  induction fuel as [|fuel (IHv & IHi & IHp)];
    [repeat split; intros; discriminate|].
  split; [|split].
  - intros [|c rest] v r H; [discriminate|].
    rewrite scan_once_step in H.
    destruct (Ascii.eqb c dquote).
    { break_result H. injection H as <- _. exact I. }
    destruct (Ascii.eqb c "{").
    { rewrite scan_once_dict in H. break_result H; injection H as <- _.
      - simpl. split; [constructor | exact I].
      - apply dict_of_pairs_unique_keys. eapply IHp; eassumption.
      - simpl. split; [constructor | exact I]. }
    destruct (Ascii.eqb c "[").
    { rewrite scan_once_list in H. break_result H; injection H as <- _;
        first [exact I | apply unique_keys_list; eapply IHi; eassumption]. }
    break_result H; try (injection H as <- _; exact I).
    eapply scan_number_unique_keys; eassumption.
  - intros s vs r H. rewrite parse_items_step in H.
    break_result H; injection H as <- _;
      (constructor; [eapply IHv; eassumption|]);
      first [constructor | eapply IHi; eassumption].
  - intros s ps r H. rewrite parse_pairs_step in H.
    break_result H; injection H as <- _;
      (constructor; [eapply IHv; eassumption|]);
      first [constructor | eapply IHp; eassumption].
Qed.

Lemma loads_unique_keys (s : string) (v : value) :
  loads s = Ok v -> unique_keys v.
Proof.
  unfold loads. intros H. break_result H. injection H as <-.
  eapply (proj1 (decoder_unique_keys _)); eassumption.
Qed.

(** *** The decoder never runs out of fuel *)

Lemma skip_ws_length (s : string) :
  (String.length (skip_ws s) <= String.length s)%nat.
Proof.
  induction s as [|c s IH]; simpl; [lia|].
  destruct (is_ws c); simpl; lia.
Qed.

Lemma substring_length (n m : nat) (s : string) :
  (String.length (substring n m s) <= m)%nat.
Proof.
  revert n m. induction s as [|c s IH]; intros [|n] [|m]; simpl;
    try lia; [specialize (IH 0%nat m) | specialize (IH n 0%nat)
              | specialize (IH n (S m))]; lia.
Qed.

Lemma drop_length (n : nat) (s : string) :
  (String.length (drop n s) <= String.length s - n)%nat.
Proof. apply substring_length. Qed.

Lemma span_digits_length (s ds r : string) :
  span_digits s = (ds, r) -> (String.length r <= String.length s)%nat.
Proof.
  revert ds r. induction s as [|c s IH]; simpl; intros ds r H.
  - injection H as <- <-. simpl. lia.
  - destruct (is_digit c).
    + destruct (span_digits s) as [ds' r'] eqn:E. injection H as <- <-.
      specialize (IH _ _ eq_refl). lia.
    + injection H as <- <-. simpl. lia.
Qed.

Ltac note_lengths :=
  repeat match goal with
         | L : context [skip_ws ?x] |- _ =>
             lazymatch goal with
             | _ : (String.length (skip_ws x) <= String.length x)%nat |- _ =>
                 fail
             | _ => pose proof (skip_ws_length x)
             end
         end;
  repeat match goal with
         | E : skip_ws ?x = _, L : context [skip_ws ?x] |- _ =>
             rewrite E in L
         end.

Lemma scanstring_progress (n : nat) :
  forall s str r,
    (String.length s <= n)%nat ->
    scanstring s = Ok (str, r) ->
    (String.length r < String.length s)%nat.
Proof.
  induction n as [|n IH]; intros [|c s1] str r Hlen H;
    try discriminate H; simpl in Hlen; [lia|].
  simpl in H. unfold cons_char in H.
  destruct (Ascii.eqb c dquote); [injection H as _ <-; simpl; lia|].
  destruct (Ascii.eqb c backslash).
  - destruct s1 as [|e s2]; [discriminate|]. simpl in Hlen.
    destruct (Ascii.eqb e "u").
    + destruct s2 as [|h1 [|h2 [|h3 [|h4 s6]]]]; try discriminate H.
      simpl in Hlen. break_result H. injection H as _ <-.
      match goal with
      | E : scanstring s6 = Ok _ |- _ => apply IH in E; [simpl; lia | lia]
      end.
    + break_result H. injection H as _ <-.
      match goal with
      | E : scanstring s2 = Ok _ |- _ => apply IH in E; [simpl; lia | lia]
      end.
  - break_result H. injection H as _ <-.
    match goal with
    | E : scanstring s1 = Ok _ |- _ => apply IH in E; [simpl; lia | lia]
    end.
Qed.

Lemma scanstring_total (n : nat) :
  forall s, (String.length s <= n)%nat -> scanstring s <> Err RecursionError.
Proof.
  induction n as [|n IH]; intros [|c s1] Hlen; try discriminate;
    simpl in Hlen; [lia|].
  assert (Hcons : forall ch t, (String.length t <= n)%nat ->
                               cons_char ch (scanstring t)
                               <> Err RecursionError).
  { intros ch t Ht. specialize (IH t Ht). unfold cons_char.
    destruct (scanstring t) as [[? ?]|e]; simpl; congruence. }
  simpl.
  destruct (Ascii.eqb c dquote); [discriminate|].
  destruct (Ascii.eqb c backslash).
  - destruct s1 as [|e s2]; [discriminate|]. simpl in Hlen.
    destruct (Ascii.eqb e "u").
    + destruct s2 as [|h1 [|h2 [|h3 [|h4 s6]]]]; try discriminate.
      simpl in Hlen.
      destruct (hex_value h1), (hex_value h2), (hex_value h3),
        (hex_value h4); try discriminate.
      destruct ((_ =? 0)%nat && (_ =? 0)%nat); [|discriminate].
      apply Hcons. lia.
    + destruct (unescape e); [apply Hcons; lia | discriminate].
  - destruct (nat_of_ascii c <? 32)%nat; [discriminate | apply Hcons; lia].
Qed.

Lemma match_integer_progress (s integer r : string) :
  match_integer s = Some (integer, r) ->
  (String.length r < String.length s)%nat.
Proof.
  assert (Hdigits : forall sign c t,
             (if Ascii.eqb c "0" then Some (sign ++ "0", t)
              else if is_digit c
                   then let (ds, r') := span_digits t in
                        Some (sign ++ String c ds, r')
                   else None) = Some (integer, r) ->
             (String.length r <= String.length t)%nat).
  { intros sign c t H. destruct (Ascii.eqb c "0").
    - injection H as _ <-. lia.
    - destruct (is_digit c); [|discriminate].
      destruct (span_digits t) as [ds r'] eqn:E. injection H as _ <-.
      now apply span_digits_length in E. }
  unfold match_integer. destruct s as [|c t]; [discriminate|].
  destruct (Ascii.eqb c "-").
  - destruct t as [|c' t']; [discriminate|]. intros H.
    apply Hdigits in H. simpl. lia.
  - intros H. apply Hdigits in H. simpl. lia.
Qed.

Lemma scan_number_progress (s : string) (v : value) (r : string) :
  scan_number s = Ok (v, r) -> (String.length r < String.length s)%nat.
Proof.
  unfold scan_number.
  destruct (match_integer s) as [[integer r']|] eqn:E.
  - apply match_integer_progress in E.
    destruct (float_follows r'); [discriminate|].
    destruct (NilZero.int_of_string integer); [|discriminate].
    now intros [= _ <-].
  - destruct (_ || _); discriminate.
Qed.

Lemma scan_number_total (s : string) : scan_number s <> Err RecursionError.
Proof.
  unfold scan_number.
  destruct (match_integer s) as [[integer r]|].
  - destruct (float_follows r); [discriminate|].
    destruct (NilZero.int_of_string integer); discriminate.
  - destruct (_ || _); discriminate.
Qed.

Lemma decoder_progress (fuel : nat) :
  (forall s v r, scan_once fuel s = Ok (v, r) ->
                 (String.length r < String.length s)%nat)
  /\ (forall s vs r, parse_items fuel s = Ok (vs, r) ->
                     (String.length r < String.length s)%nat)
  /\ (forall s ps r, parse_pairs fuel s = Ok (ps, r) ->
                     (String.length r < String.length s)%nat).
Proof.
  induction fuel as [|fuel (IHv & IHi & IHp)];
    [repeat split; intros; discriminate|].
  split; [|split].
  - intros [|c rest] v r H; [discriminate|].
    rewrite scan_once_step in H.
    destruct (Ascii.eqb c dquote).
    { break_result H. injection H as _ <-.
      match goal with
      | E : scanstring _ = Ok _ |- _ =>
          apply (scanstring_progress _ _ _ _ (le_n _)) in E
      end. simpl. lia. }
    destruct (Ascii.eqb c "{").
    { rewrite scan_once_dict in H. break_result H; injection H as _ <-;
        repeat match goal with
               | E : parse_pairs fuel _ = Ok _ |- _ => apply IHp in E
               end; note_lengths; simpl in *; lia. }
    destruct (Ascii.eqb c "[").
    { rewrite scan_once_list in H. break_result H; injection H as _ <-;
        repeat match goal with
               | E : parse_items fuel _ = Ok _ |- _ => apply IHi in E
               end; note_lengths; simpl in *; lia. }
    break_result H;
      try (injection H as _ <-;
           match goal with
           | |- context [drop ?n ?t] => pose proof (drop_length n t)
           end; simpl in *; lia).
    now apply scan_number_progress in H.
  - intros s vs r H. rewrite parse_items_step in H.
    break_result H; injection H as _ <-;
      repeat match goal with
             | E : scan_once fuel _ = Ok _ |- _ => apply IHv in E
             | E : parse_items fuel _ = Ok _ |- _ => apply IHi in E
             end; note_lengths; simpl in *; lia.
  - intros s ps r H. rewrite parse_pairs_step in H.
    break_result H; injection H as _ <-;
      repeat match goal with
             | E : scanstring _ = Ok _ |- _ =>
                 apply (scanstring_progress _ _ _ _ (le_n _)) in E
             | E : scan_once fuel _ = Ok _ |- _ => apply IHv in E
             | E : parse_pairs fuel _ = Ok _ |- _ => apply IHp in E
             end; note_lengths; simpl in *; lia.
Qed.

Ltac break_goal :=
  repeat match goal with
         | |- Ok _ <> _ => discriminate
         | |- Err JSONDecodeError <> _ => discriminate
         | |- Err OutsideModel <> _ => discriminate
         | |- context [Py.bind ?r _] =>
             let E := fresh "E" in
             destruct r as [[? ?]|?] eqn:E; cbn [Py.bind]
         | |- context [match ?x with _ => _ end] =>
             let E := fresh "E" in destruct x eqn:E
         end.

Ltac note_progress fuel :=
  repeat match goal with
         | E : scan_once fuel ?s = Ok (_, ?r) |- _ =>
             lazymatch goal with
             | _ : (String.length r < String.length s)%nat |- _ => fail
             | _ => pose proof (proj1 (decoder_progress fuel) _ _ _ E)
             end
         | E : scanstring ?s = Ok (_, ?r) |- _ =>
             lazymatch goal with
             | _ : (String.length r < String.length s)%nat |- _ => fail
             | _ => pose proof (scanstring_progress _ _ _ _ (le_n _) E)
             end
         end.

Lemma decoder_total (fuel : nat) :
  (forall s, (2 * String.length s + 1 <= fuel)%nat ->
             scan_once fuel s <> Err RecursionError)
  /\ (forall s, (2 * String.length s + 2 <= fuel)%nat ->
                parse_items fuel s <> Err RecursionError)
  /\ (forall s, (2 * String.length s + 2 <= fuel)%nat ->
                parse_pairs fuel s <> Err RecursionError).
Proof.
  induction fuel as [|fuel (IHv & IHi & IHp)];
    [repeat split; intros; lia|].
  split; [|split].
  - intros [|c rest] Hfuel; [discriminate|]. simpl in Hfuel.
    rewrite scan_once_step.
    destruct (Ascii.eqb c dquote).
    { destruct (scanstring rest) as [[? ?]|e] eqn:E; simpl; [discriminate|].
      intros [= ->]. exact (scanstring_total _ _ (le_n _) E). }
    destruct (Ascii.eqb c "{").
    { rewrite scan_once_dict. break_goal. intros [= ->].
      match goal with
      | E : parse_pairs fuel _ = Err RecursionError |- _ =>
          apply IHp in E; [exact E|]
      end. note_lengths. simpl in *. lia. }
    destruct (Ascii.eqb c "[").
    { rewrite scan_once_list. break_goal. intros [= ->].
      match goal with
      | E : parse_items fuel _ = Err RecursionError |- _ =>
          apply IHi in E; [exact E|]
      end. note_lengths. simpl in *. lia. }
    break_goal. apply scan_number_total.
  - intros s Hfuel. rewrite parse_items_step. break_goal;
      intros [= ->]; note_progress fuel;
      match goal with
      | E : scan_once fuel _ = Err RecursionError |- _ =>
          apply IHv in E; [exact E|]
      | E : parse_items fuel _ = Err RecursionError |- _ =>
          apply IHi in E; [exact E|]
      end; note_lengths; simpl in *; lia.
  - intros s Hfuel. rewrite parse_pairs_step. break_goal;
      intros [= ->]; note_progress fuel;
      match goal with
      | E : scanstring _ = Err RecursionError |- _ =>
          exact (scanstring_total _ _ (le_n _) E)
      | E : scan_once fuel _ = Err RecursionError |- _ =>
          apply IHv in E; [exact E|]
      | E : parse_pairs fuel _ = Err RecursionError |- _ =>
          apply IHp in E; [exact E|]
      end; note_lengths; simpl in *; lia.
Qed.

(** [loads] always answers with a value, a decoding error or a text
    outside the embedding: the bound on nesting is never what stops it. *)
Lemma loads_total (s : string) : loads s <> Err RecursionError.
Proof.
  unfold loads.
  destruct (scan_once _ _) as [[v r]|e] eqn:E; simpl.
  - destruct (skip_ws r); discriminate.
  - intros [= ->]. apply (proj1 (decoder_total _)) in E; [exact E|].
    pose proof (skip_ws_length s). lia.
Qed.

Lemma dict_get_set_same (k : string) (v : value)
      (d : list (string * value)) :
  dict_get k (dict_set k v d) = Some v.
Proof.
  induction d as [|[k' v'] d IH]; simpl.
  - now rewrite String.eqb_refl.
  - destruct (String.eqb k' k) eqn:Hk; simpl; now rewrite Hk.
Qed.

Lemma dict_get_set_other (k k0 : string) (v : value)
      (d : list (string * value)) :
  k0 <> k -> dict_get k0 (dict_set k v d) = dict_get k0 d.
Proof.
  intros Hne. induction d as [|[k' v'] d IH]; simpl.
  - destruct (String.eqb_spec k k0); [congruence | reflexivity].
  - destruct (String.eqb_spec k' k) as [->|Hk]; simpl.
    + destruct (String.eqb_spec k k0); [congruence | reflexivity].
    + now rewrite IH.
Qed.
End JsonFacts.


(** ** Content documents: [get_content], [set_content] and the content
    endpoint *)

Section ContentDocuments.
Import Json JsonDoc Py.
Local Open Scope string_scope.

Lemma page_round_trip (p : Page.t) (v : value) :
  unique_keys v -> Page.get_content (Page.set_content p v) = Ok v.
Proof.
  intros Hv. unfold Page.get_content, Page.set_content. simpl.
  now rewrite dumps_not_empty, loads_dumps.
Qed.

Lemma page_content_unique_keys (p : Page.t) (v : value) :
  Page.get_content p = Ok v -> unique_keys v.
Proof.
  unfold Page.get_content.
  destruct (Page.content_json p) as [s|]; [|intros [= <-]; simpl; split;
                                             [constructor | exact I]].
  destruct (String.eqb s EmptyString).
  - intros [= <-]. simpl. split; [constructor | exact I].
  - apply loads_unique_keys.
Qed.

Lemma find_page_after_update (st : Db.t) (slug : string) (p p' : Page.t) :
  Db.find_page st slug = Some p ->
  Page.slug p' = slug ->
  Page.id p' = Page.id p ->
  Db.find_page (Db.update_page p' st) slug = Some p'.
Proof.
  unfold Db.find_page, Db.update_page. cbn [Db.pages].
  intros Hfind Hslug Hid.
  induction (Db.pages st) as [|q qs IH]; [discriminate|].
  simpl in *. destruct (Z.eqb (Page.id q) (Page.id p')) eqn:Hq.
  - now rewrite Hslug, String.eqb_refl.
  - destruct (String.eqb (Page.slug q) slug).
    + injection Hfind as ->. rewrite Hid, Z.eqb_refl in Hq. discriminate.
    + now apply IH.
Qed.

(** C4 (as amended).  [get_content] answers the empty document when the
    stored text is absent or empty.  It has no other recovery: when a
    non-empty stored text fails to parse, the decoder's exception leaves
    [get_content], on a Page and on a ContentBlock alike. *)
Theorem get_content_recovers_only_missing_text
        (p : Page.t) (b : ContentBlock.t) :
  ((Page.content_json p = None \/ Page.content_json p = Some EmptyString) ->
   Page.get_content p = Ok (JDict []))
  /\ ((ContentBlock.content_json b = None
       \/ ContentBlock.content_json b = Some EmptyString) ->
      ContentBlock.get_content b = Ok (JDict []))
  /\ (forall s e,
         Page.content_json p = Some s -> s <> EmptyString ->
         loads s = Err e -> Page.get_content p = Err e)
  /\ (forall s e,
         ContentBlock.content_json b = Some s -> s <> EmptyString ->
         loads s = Err e -> ContentBlock.get_content b = Err e).
Proof.
  unfold Page.get_content, ContentBlock.get_content. repeat split.
  - intros [-> | ->]; reflexivity.
  - intros [-> | ->]; reflexivity.
  - intros s e -> Hs He. apply String.eqb_neq in Hs. now rewrite Hs.
  - intros s e -> Hs He. apply String.eqb_neq in Hs. now rewrite Hs.
Qed.

Lemma get_content_recovers_only_missing_text_witness :
  Page.get_content (Page.mk 2 "new" "New" None None 0 0) = Ok (JDict [])
  /\ Page.get_content broken_page = Err JSONDecodeError
  /\ ContentBlock.get_content broken_block = Err JSONDecodeError.
Proof.
  split; [|split].
  - apply (proj1 (get_content_recovers_only_missing_text
                    (Page.mk 2 "new" "New" None None 0 0) broken_block)).
    now left.
  - apply (proj1 (proj2 (proj2 (get_content_recovers_only_missing_text
                                  broken_page broken_block)))
             "<p>welcome</p>" JSONDecodeError);
      [reflexivity | discriminate | reflexivity].
  - apply (proj2 (proj2 (proj2 (get_content_recovers_only_missing_text
                                  broken_page broken_block)))
             "{" JSONDecodeError);
      [reflexivity | discriminate | reflexivity].
Defined.

(** C4, counterexample.  A page whose stored text is [<p>welcome</p>] and
    a block whose stored text is an unclosed brace: [json.loads] rejects
    both, [get_content] raises instead of answering the empty document,
    and the page view ends in the exception. *)
Lemma get_content_raises_on_malformed_text :
  loads "<p>welcome</p>" = Err JSONDecodeError
  /\ Page.get_content broken_page = Err JSONDecodeError
  /\ Page.get_content broken_page <> Ok (JDict [])
  /\ ContentBlock.get_content broken_block = Err JSONDecodeError
  /\ snd (App.page no_default 10 "home" broken_db)
     = App.InternalServerError JSONDecodeError.
Proof. repeat split. discriminate. Qed.

(** X20.  For an authenticated caller and a page whose stored document
    is a dict of the embedding (null, booleans, integers, text up to
    U+00FF, lists and dicts), the content endpoint sets the key [html] to
    the string the body holds under [content], leaves every other key of
    the document with the value it had, and stamps [updated_at]; the page
    keeps its identity, and blocks and buttons are not touched. *)
Theorem update_page_content_sets_html_only
        (cu : Auth.current_user_t) (slug html : string)
        (data : list (string * value)) (now : Z) (st : Db.t)
        (p : Page.t) (d : list (string * value)) :
  Auth.is_authenticated cu = true ->
  Db.find_page st slug = Some p ->
  Page.get_content p = Ok (JDict d) ->
  dict_get "content" data = Some (JStr html) ->
  snd (App.update_page_content cu slug (JDict data) now st)
  = App.JsonSuccess None
  /\ exists p' d',
      Db.find_page (fst (App.update_page_content cu slug (JDict data) now st))
                   slug = Some p'
      /\ Page.get_content p' = Ok (JDict d')
      /\ dict_get "html" d' = Some (JStr html)
      /\ (forall k, k <> "html" -> dict_get k d' = dict_get k d)
      /\ Page.updated_at p' = now
      /\ Page.id p' = Page.id p
      /\ Page.title p' = Page.title p
      /\ Db.content_blocks
           (fst (App.update_page_content cu slug (JDict data) now st))
         = Db.content_blocks st
      /\ Db.buttons
           (fst (App.update_page_content cu slug (JDict data) now st))
         = Db.buttons st.
Proof.
  intros Hcu Hfind Hcontent Hdata.
  unfold App.update_page_content, App.login_required,
    App.update_page_content_view.
  rewrite Hcu, Hfind, Hcontent. cbn [Py.bind]. rewrite Hdata.
  cbn [Py.bind fst snd]. split; [reflexivity|].
  assert (Hslug : Page.slug p = slug).
  { unfold Db.find_page in Hfind. apply find_some in Hfind as [_ Hs].
    now apply String.eqb_eq. }
  eexists _, (dict_set "html" (JStr html) d).
  split; [apply find_page_after_update with (p := p);
          [exact Hfind | exact Hslug | reflexivity]|].
  split.
  { change (Page.get_content
              (Page.set_updated_at
                 (Page.set_content p (JDict (dict_set "html" (JStr html) d)))
                 now))
      with (Page.get_content
              (Page.set_content p (JDict (dict_set "html" (JStr html) d)))).
    apply page_round_trip. apply dict_set_unique_keys; [exact I|].
    now apply (page_content_unique_keys p). }
  split; [apply dict_get_set_same|].
  split; [intros k Hk; now apply dict_get_set_other|].
  repeat split.
Qed.

Lemma update_page_content_sets_html_only_witness :
  exists p' d',
    Db.find_page (fst (App.update_page_content
                         (Auth.LoggedIn plain_user) "rules/general-rules"
                         (put_body "<p>new</p>") 10 layout_db))
                 "rules/general-rules" = Some p'
    /\ Page.get_content p' = Ok (JDict d')
    /\ dict_get "html" d' = Some (JStr "<p>new</p>")
    /\ dict_get "layout" d' = Some (JStr "wide")
    /\ Page.updated_at p' = 10.
Proof.
  destruct (update_page_content_sets_html_only
              (Auth.LoggedIn plain_user) "rules/general-rules" "<p>new</p>"
              [("content", JStr "<p>new</p>")] 10 layout_db layout_page
              [("layout", JStr "wide");
               ("tags", JList [JStr "rules"; JInt 3; JBool true; JNull]);
               ("html", JStr "<p>old</p>")]
              eq_refl eq_refl eq_refl eq_refl)
    as (_ & p' & d' & Hfind & Hget & Hhtml & Hother & Hstamp & _).
  exists p', d'. split; [exact Hfind|]. split; [exact Hget|].
  split; [exact Hhtml|]. split; [|exact Hstamp].
  rewrite Hother; [reflexivity | discriminate].
Defined.
End ContentDocuments.


(** * Further properties of the code *)

(** ** The permission check, continued *)

Section PermissionMore.
Import EditorPermission.
Local Open Scope list_scope.

(** X1.  A grant whose pattern is neither [*] nor ends in [/*] is compared
    literally: it decides for the slug equal to the pattern (when the
    section test passes) and for no other slug, also when the pattern
    holds a [*] somewhere else. *)
Theorem plain_grant_decides_equal_slug_only
        (g : EditorPermission.t) (slug : string) (sec : option string) :
  page_slug g <> "*"%string ->
  PyStr.endswith (page_slug g) "/*" = false ->
  User.perm_step g slug sec
  = (if String.eqb (page_slug g) slug && User.section_ok sec g
     then Some (can_edit g) else None)
  /\ (page_slug g <> slug -> User.perm_step g slug sec = None).
Proof.
  intros Hstar Hprefix. apply String.eqb_neq in Hstar.
  assert (Hstep : User.perm_step g slug sec
                  = if String.eqb (page_slug g) slug && User.section_ok sec g
                    then Some (can_edit g) else None).
  { unfold User.perm_step. rewrite Hstar, Hprefix.
    now destruct (String.eqb (page_slug g) slug). }
  split; [exact Hstep|].
  intros Hne. apply String.eqb_neq in Hne. now rewrite Hstep, Hne.
Qed.

Lemma plain_grant_decides_equal_slug_only_witness :
  User.perm_step literal_star_grant "teams/trainer/roster" None = None
  /\ User.perm_step literal_star_grant "teams/*/roster" None = Some true.
Proof.
  split.
  - apply (proj2 (plain_grant_decides_equal_slug_only
                    literal_star_grant "teams/trainer/roster" None
                    ltac:(discriminate) eq_refl)).
    discriminate.
  - exact (proj1 (plain_grant_decides_equal_slug_only
                    literal_star_grant "teams/*/roster" None
                    ltac:(discriminate) eq_refl)).
Defined.

Lemma perm_step_page_level (g : EditorPermission.t) (slug : string) :
  User.perm_step g slug None = User.perm_step (erase_section g) slug None.
Proof. reflexivity. Qed.

(** X2.  A query for a whole page (no section id) does not look at the
    section of any grant: the answer is the one the same grants give with
    their sections removed.  So a grant restricted to one section of a
    page, coming first, allows the page-level query for that page. *)
Theorem page_level_query_ignores_grant_sections
        (u : User.t) (slug : string) :
  User.has_permission u slug None
  = User.has_permission_loop (map erase_section (User.permissions u))
                             slug None
  /\ (forall g rest,
         User.permissions u = g :: rest ->
         page_slug g = slug ->
         slug <> "*"%string ->
         User.has_permission u slug None = can_edit g).
Proof.
  unfold User.has_permission. split.
  - induction (User.permissions u) as [|g perms IH]; [reflexivity|].
    simpl. rewrite <- perm_step_page_level.
    destruct (User.perm_step g slug None); [reflexivity | exact IH].
  - intros g rest -> Hslug Hstar. simpl.
    unfold User.perm_step. rewrite Hslug.
    apply String.eqb_neq in Hstar. rewrite Hstar, String.eqb_refl.
    now destruct (PyStr.endswith slug "/*");
      destruct (PyStr.startswith slug (PyStr.drop_last 2 slug)).
Qed.

Lemma page_level_query_ignores_grant_sections_witness :
  User.has_permission (user_with [nav_section_grant]) "home" None = true
  /\ User.has_permission (user_with [nav_section_grant]) "home"
                         (Some "footer"%string) = false.
Proof.
  split; [|reflexivity].
  exact (proj2 (page_level_query_ignores_grant_sections
                  (user_with [nav_section_grant]) "home")
               nav_section_grant [] eq_refl eq_refl ltac:(discriminate)).
Defined.

(** X3.  When every grant of a user allows, the order of the grants does
    not matter: the user is authorized exactly when some grant decides,
    two orderings of the same grants answer alike, and adding grants never
    takes an authorization away. *)
Theorem allow_only_grants_are_order_independent
        (perms perms' more : list EditorPermission.t) (slug : string)
        (sec : option string) :
  (forall g, In g perms -> can_edit g = true) ->
  User.has_permission_loop perms slug sec
  = existsb (fun g => Grant.decides g slug sec) perms
  /\ (Permutation perms perms' ->
      User.has_permission_loop perms' slug sec
      = User.has_permission_loop perms slug sec)
  /\ ((forall g, In g more -> can_edit g = true) ->
      User.has_permission_loop perms slug sec = true ->
      User.has_permission_loop (perms ++ more) slug sec = true).
Proof.
  assert (Hex : forall l,
             (forall g, In g l -> can_edit g = true) ->
             User.has_permission_loop l slug sec
             = existsb (fun g => Grant.decides g slug sec) l).
  { induction l as [|g l IH]; intros Hall; [reflexivity|].
    simpl. rewrite perm_step_decides.
    destruct (Grant.decides g slug sec) eqn:Hd; simpl.
    - unfold Grant.outcome. rewrite (Hall g (or_introl eq_refl)).
      now destruct (Grant.is_wildcard g).
    - apply IH. intros h Hh. apply Hall. now right. }
  intros Hall. split; [now apply Hex|]. split.
  - intros Hperm. rewrite (Hex perms Hall), Hex.
    + apply eq_true_iff_eq. rewrite !existsb_exists.
      split; intros (g & Hin & Hd); exists g; split; trivial.
      * now apply (Permutation_in g (Permutation_sym Hperm)).
      * now apply (Permutation_in g Hperm).
    + intros g Hg. apply Hall.
      now apply (Permutation_in g (Permutation_sym Hperm)).
  - intros Hmore. rewrite (Hex perms Hall), Hex.
    + rewrite existsb_app. now intros ->.
    + intros g Hg. apply in_app_or in Hg as [Hg | Hg]; auto.
Qed.

Lemma allow_only_grants_are_order_independent_witness :
  User.has_permission_loop [allow_rules_x; teams_editor_grant]
                           "teams/trainer" None
  = User.has_permission_loop [teams_editor_grant; allow_rules_x]
                             "teams/trainer" None.
Proof.
  assert (Hallow : forall g, In g [teams_editor_grant; allow_rules_x] ->
                             can_edit g = true)
    by (intros g [<- | [<- | []]]; reflexivity).
  apply (proj1 (proj2 (allow_only_grants_are_order_independent
                         [teams_editor_grant; allow_rules_x]
                         [allow_rules_x; teams_editor_grant] []
                         "teams/trainer" None Hallow))).
  apply perm_swap.
Defined.


End PermissionMore.

(** ** The content endpoint, continued *)

Section ContentEndpoint.
Import Json JsonDoc Py.
Local Open Scope list_scope.

Lemma dict_get_unique_keys (k : string) (d : list (string * value))
      (v : value) :
  unique_keys (JDict d) -> dict_get k d = Some v -> unique_keys v.
Proof.
  intros Hd. apply unique_keys_dict in Hd as [_ Hall].
  induction Hall as [|[k' v'] d Hv Hall IH]; simpl; [discriminate|].
  destruct (String.eqb k' k); [now intros [= <-] | exact IH].
Qed.

Lemma body_content_unique_keys (body : list (string * value)) :
  unique_keys (JDict body) -> unique_keys (body_content body).
Proof.
  intros Hbody. unfold body_content.
  destruct (dict_get "content" body) as [v|] eqn:Hget; [|exact I].
  exact (dict_get_unique_keys _ _ _ Hbody Hget).
Qed.

Lemma stored_document_unique_keys (st : Db.t) (slug : string) (v : value) :
  stored_document st slug = Ok v -> unique_keys v.
Proof.
  unfold stored_document. destruct (Db.find_page st slug) as [p|].
  - apply page_content_unique_keys.
  - intros [= <-]. simpl. split; [constructor | exact I].
Qed.

Lemma dict_set_twice (k : string) (v1 v2 : value)
      (d : list (string * value)) :
  dict_set k v2 (dict_set k v1 d) = dict_set k v2 d.
Proof.
  induction d as [|[k' v'] d IH]; simpl.
  - now rewrite String.eqb_refl.
  - destruct (String.eqb k' k) eqn:Hk; simpl; rewrite Hk;
      [reflexivity | now rewrite IH].
Qed.

(** What one accepted run of the content endpoint leaves behind. *)
Lemma update_page_content_effect
      (cu : Auth.current_user_t) (slug : string)
      (body : list (string * value)) (now : Z) (st : Db.t)
      (d : list (string * value)) :
  Auth.is_authenticated cu = true ->
  stored_document st slug = Ok (JDict d) ->
  unique_keys (JDict body) ->
  snd (App.update_page_content cu slug (JDict body) now st)
  = App.JsonSuccess None
  /\ exists p',
      Db.find_page (fst (App.update_page_content cu slug (JDict body) now st))
                   slug = Some p'
      /\ Page.get_content p'
         = Ok (JDict (dict_set "html" (body_content body) d))
      /\ Page.updated_at p' = now
      /\ Page.slug p' = slug.
Proof.
  intros Hcu Hdoc Hbody.
  pose proof (stored_document_unique_keys _ _ _ Hdoc) as Hd.
  pose proof (body_content_unique_keys _ Hbody) as Hv.
  unfold stored_document in Hdoc.
  unfold App.update_page_content, App.login_required,
    App.update_page_content_view.
  rewrite Hcu. fold (body_content body).
  destruct (Db.find_page st slug) as [p|] eqn:Hfind.
  - rewrite Hdoc. cbn [Py.bind fst snd]. split; [reflexivity|].
    assert (Hslug : Page.slug p = slug).
    { unfold Db.find_page in Hfind. apply find_some in Hfind as [_ Hs].
      now apply String.eqb_eq. }
    eexists. split; [apply find_page_after_update with (p := p);
                     [exact Hfind | exact Hslug | reflexivity]|].
    split; [|split; [reflexivity | exact Hslug]].
    change (Page.get_content
              (Page.set_updated_at
                 (Page.set_content
                    p (JDict (dict_set "html" (body_content body) d))) now))
      with (Page.get_content
              (Page.set_content
                 p (JDict (dict_set "html" (body_content body) d)))).
    apply page_round_trip. now apply dict_set_unique_keys.
  - injection Hdoc as <-. cbn [Page.get_content Page.content_json Py.bind
                                 fst snd].
    split; [reflexivity|].
    eexists. split; [apply find_page_after_add; [reflexivity | exact Hfind]|].
    split; [|split; reflexivity].
    match goal with
    | |- Page.get_content (Page.set_updated_at (Page.set_content ?q ?doc) _)
         = _ =>
        change (Page.get_content (Page.set_content q doc) = Ok doc)
    end.
    apply page_round_trip. now apply dict_set_unique_keys.
Qed.

Lemma update_page_content_document
      (cu : Auth.current_user_t) (slug : string)
      (body : list (string * value)) (now : Z) (st : Db.t)
      (d : list (string * value)) :
  Auth.is_authenticated cu = true ->
  stored_document st slug = Ok (JDict d) ->
  unique_keys (JDict body) ->
  stored_document (fst (App.update_page_content cu slug (JDict body) now st))
                  slug
  = Ok (JDict (dict_set "html" (body_content body) d)).
Proof.
  intros Hcu Hdoc Hbody.
  destruct (update_page_content_effect cu slug body now st d Hcu Hdoc Hbody)
    as (_ & p' & Hfind & Hget & _).
  unfold stored_document. now rewrite Hfind.
Qed.

(** X6.  The content endpoint stores whatever the body holds under
    [content], string or not, and the empty string when the body has no
    such key; on a slug without a page the stored document becomes exactly
    the one key [html]. *)
Theorem content_update_stores_body_content
        (cu : Auth.current_user_t) (slug : string)
        (body : list (string * value)) (now : Z) (st : Db.t)
        (d : list (string * value)) :
  Auth.is_authenticated cu = true ->
  stored_document st slug = Ok (JDict d) ->
  unique_keys (JDict body) ->
  stored_document (fst (App.update_page_content cu slug (JDict body) now st))
                  slug
  = Ok (JDict (dict_set "html" (body_content body) d))
  /\ (dict_get "content" body = None ->
      stored_document
        (fst (App.update_page_content cu slug (JDict body) now st)) slug
      = Ok (JDict (dict_set "html" (JStr EmptyString) d)))
  /\ (Db.find_page st slug = None ->
      stored_document
        (fst (App.update_page_content cu slug (JDict body) now st)) slug
      = Ok (JDict [("html"%string, body_content body)])).
Proof.
  intros Hcu Hdoc Hbody.
  pose proof (update_page_content_document cu slug body now st d
                                           Hcu Hdoc Hbody) as Hnew.
  split; [exact Hnew|]. split.
  - intros Hmissing. rewrite Hnew. unfold body_content.
    now rewrite Hmissing.
  - intros Hnone. rewrite Hnew. unfold stored_document in Hdoc.
    rewrite Hnone in Hdoc. now injection Hdoc as <-.
Qed.

Lemma content_update_stores_body_content_witness :
  stored_document
    (fst (App.update_page_content (Auth.LoggedIn plain_user) "eco-guide"
                                  (JDict number_body) 10 seeded_db))
    "eco-guide"
  = Ok (JDict [("html"%string, JList [JInt 1; JInt 2])])
  /\ stored_document
       (fst (App.update_page_content (Auth.LoggedIn plain_user) "home"
                                     (JDict empty_body) 10 seeded_db))
       "home"
     = Ok (JDict [("html"%string, JStr EmptyString)]).
Proof.
  assert (Hnumber : unique_keys (JDict number_body)).
  { simpl. repeat split. repeat constructor. intros []. }
  assert (Hempty : unique_keys (JDict empty_body)).
  { simpl. repeat split. repeat constructor. intros []. }
  split.
  - exact (proj2 (proj2 (content_update_stores_body_content
                           (Auth.LoggedIn plain_user) "eco-guide" number_body
                           10 seeded_db [] eq_refl eq_refl Hnumber))
                 eq_refl).
  - exact (proj1 (proj2 (content_update_stores_body_content
                           (Auth.LoggedIn plain_user) "home" empty_body
                           10 seeded_db [] eq_refl eq_refl Hempty))
                 eq_refl).
Defined.



Lemma render_document (dflt : string) (st : Db.t) (p : Page.t)
      (d : list (string * value)) :
  Page.get_content p = Ok (JDict d) ->
  App.render dflt st p
  = (st, App.Rendered p match dict_get "html" d with
                        | Some v => v
                        | None => JStr dflt
                        end).
Proof. intros H. unfold App.render. now rewrite H. Qed.

(** X8.  As long as the stored document of a slug has no [html] key, and
    in particular on the first visit of a slug, the page view shows the
    default text of the route for that slug; the rules view does the same
    for [rules/<slug>] with its own default. *)
Theorem page_view_falls_back_to_default
        (dflt : string -> string) (now : Z) (slug : string) (st : Db.t)
        (d : list (string * value)) :
  (stored_document st slug = Ok (JDict d) ->
   dict_get "html" d = None ->
   exists p,
     snd (App.page dflt now slug st) = App.Rendered p (JStr (dflt slug))
     /\ Page.slug p = slug)
  /\ (stored_document st ("rules/" ++ slug) = Ok (JDict d) ->
      dict_get "html" d = None ->
      exists p,
        snd (App.rules_detail dflt now slug st)
        = App.Rendered p (JStr (dflt slug))
        /\ Page.slug p = ("rules/" ++ slug)%string).
Proof.
  assert (Hfresh : forall db s t n,
             Page.get_content (App.new_page db s t None n) = Ok (JDict [])).
  { intros. reflexivity. }
  unfold stored_document, App.page, App.rules_detail. split.
  - destruct (Db.find_page st slug) as [p|] eqn:Hfind; intros Hdoc Hhtml.
    + exists p. rewrite (render_document _ _ _ _ Hdoc), Hhtml.
      split; [reflexivity|].
      unfold Db.find_page in Hfind. apply find_some in Hfind as [_ Hs].
      now apply String.eqb_eq.
    + eexists. rewrite (render_document _ _ _ _ (Hfresh _ _ _ _)).
      split; reflexivity.
  - destruct (Db.find_page st ("rules/" ++ slug)) as [p|] eqn:Hfind;
      intros Hdoc Hhtml.
    + exists p. rewrite (render_document _ _ _ _ Hdoc), Hhtml.
      split; [reflexivity|].
      unfold Db.find_page in Hfind. apply find_some in Hfind as [_ Hs].
      now apply String.eqb_eq.
    + eexists. rewrite (render_document _ _ _ _ (Hfresh _ _ _ _)).
      split; reflexivity.
Qed.

Lemma page_view_falls_back_to_default_witness :
  exists p,
    snd (App.page (fun slug => ("default for " ++ slug)%string) 10
                  "eco-guide" seeded_db)
    = App.Rendered p (JStr "default for eco-guide").
Proof.
  destruct (proj1 (page_view_falls_back_to_default
                     (fun slug => ("default for " ++ slug)%string) 10
                     "eco-guide" seeded_db [])
                  eq_refl eq_refl) as [p [Hp _]].
  exists p. exact Hp.
Defined.

(** X9.  Read after write: once the content endpoint has accepted a
    request for a slug, the page view of that slug shows the content just
    written and no longer the default. *)
Theorem page_view_shows_written_content
        (cu : Auth.current_user_t) (slug : string)
        (body : list (string * value)) (now now' : Z) (st : Db.t)
        (d : list (string * value)) (dflt : string -> string) :
  Auth.is_authenticated cu = true ->
  stored_document st slug = Ok (JDict d) ->
  unique_keys (JDict body) ->
  exists p',
    App.page dflt now' slug
             (fst (App.update_page_content cu slug (JDict body) now st))
    = (fst (App.update_page_content cu slug (JDict body) now st),
       App.Rendered p' (body_content body))
    /\ Page.slug p' = slug
    /\ Page.updated_at p' = now.
Proof.
  intros Hcu Hdoc Hbody.
  destruct (update_page_content_effect cu slug body now st d Hcu Hdoc Hbody)
    as (_ & p' & Hfind & Hget & Hstamp & Hslug).
  exists p'. split; [|split; assumption].
  unfold App.page. rewrite Hfind, (render_document _ _ _ _ Hget).
  now rewrite dict_get_set_same.
Qed.

Lemma page_view_shows_written_content_witness :
  exists p',
    snd (App.page no_default 11 "home"
                  (fst (App.update_page_content
                          (Auth.LoggedIn plain_user) "home"
                          (put_body "<p>new</p>") 10 seeded_db)))
    = App.Rendered p' (JStr "<p>new</p>").
Proof.
  destruct (page_view_shows_written_content
              (Auth.LoggedIn plain_user) "home"
              [("content"%string, JStr "<p>new</p>")] 10 11 seeded_db []
              no_default eq_refl eq_refl)
    as (p' & Hview & _).
  - simpl. repeat split. repeat constructor. intros [].
  - exists p'. unfold put_body. now rewrite Hview.
Defined.

(** X10.  The last write wins and nothing of the earlier one remains: two
    accepted updates of a slug leave the document that the second update
    alone would have left. *)
Theorem content_update_last_write_wins
        (cu cu' : Auth.current_user_t) (slug : string)
        (body body' : list (string * value)) (now now' : Z) (st : Db.t)
        (d : list (string * value)) :
  Auth.is_authenticated cu = true ->
  Auth.is_authenticated cu' = true ->
  stored_document st slug = Ok (JDict d) ->
  unique_keys (JDict body) ->
  unique_keys (JDict body') ->
  stored_document
    (fst (App.update_page_content
            cu' slug (JDict body') now'
            (fst (App.update_page_content cu slug (JDict body) now st))))
    slug
  = stored_document
      (fst (App.update_page_content cu' slug (JDict body') now' st)) slug.
Proof.
  intros Hcu Hcu' Hdoc Hbody Hbody'.
  pose proof (update_page_content_document
                cu slug body now st d Hcu Hdoc Hbody) as Hfirst.
  pose proof (update_page_content_document
                cu' slug body' now' _ _ Hcu' Hfirst Hbody') as Hboth.
  pose proof (update_page_content_document
                cu' slug body' now' st d Hcu' Hdoc Hbody') as Hsecond.
  now rewrite Hboth, Hsecond, dict_set_twice.
Qed.

Lemma content_update_last_write_wins_witness :
  stored_document
    (fst (App.update_page_content
            (Auth.LoggedIn admin) "rules/general-rules"
            (put_body "<p>second</p>") 11
            (fst (App.update_page_content
                    (Auth.LoggedIn plain_user) "rules/general-rules"
                    (put_body "<p>first</p>") 10 layout_db))))
    "rules/general-rules"
  = stored_document
      (fst (App.update_page_content
              (Auth.LoggedIn admin) "rules/general-rules"
              (put_body "<p>second</p>") 11 layout_db))
      "rules/general-rules".
Proof.
  assert (Hbody : forall h, unique_keys (JDict [("content"%string, JStr h)])).
  { intros h. simpl. repeat split. repeat constructor. intros []. }
  exact (content_update_last_write_wins
           (Auth.LoggedIn plain_user) (Auth.LoggedIn admin)
           "rules/general-rules"
           [("content"%string, JStr "<p>first</p>")]
           [("content"%string, JStr "<p>second</p>")] 10 11 layout_db
           [("layout"%string, JStr "wide");
            ("tags"%string, JList [JStr "rules"; JInt 3; JBool true; JNull]);
            ("html"%string, JStr "<p>old</p>")]
           eq_refl eq_refl eq_refl (Hbody _) (Hbody _)).
Defined.
End ContentEndpoint.

(** ** What the routes keep: keys, slugs, references, positions *)

Section Invariants.
Import Json Py.
Local Open Scope list_scope.

Lemma fold_max_upper (ids : list Z) (x : Z) :
  In x ids -> x <= fold_right Z.max 0 ids.
Proof.
  induction ids as [|y ids IH]; simpl; [intros []|].
  intros [-> | Hx]; [lia | specialize (IH Hx); lia].
Qed.

Lemma next_id_fresh (ids : list Z) : ~ In (Db.next_id ids) ids.
Proof.
  intros Hin. apply fold_max_upper in Hin. unfold Db.next_id in Hin. lia.
Qed.

Lemma NoDup_snoc {A : Type} (l : list A) (x : A) :
  NoDup l -> ~ In x l -> NoDup (l ++ [x]).
Proof.
  intros Hl Hx. apply NoDup_app; [exact Hl | repeat constructor; intros []|].
  intros a Ha [<- | []]. exact (Hx Ha).
Qed.

Lemma find_page_none_slug (st : Db.t) (slug : string) :
  Db.find_page st slug = None -> ~ In slug (map Page.slug (Db.pages st)).
Proof.
  unfold Db.find_page. intros Hnone Hin.
  apply in_map_iff in Hin as (q & Hq & Hin).
  pose proof (find_none _ _ Hnone q Hin) as Hno. simpl in Hno.
  rewrite Hq, String.eqb_refl in Hno. discriminate.
Qed.

Lemma find_page_some_in (st : Db.t) (slug : string) (p : Page.t) :
  Db.find_page st slug = Some p ->
  In p (Db.pages st) /\ Page.slug p = slug.
Proof.
  unfold Db.find_page. intros H. apply find_some in H as [Hin Hs].
  split; [exact Hin | now apply String.eqb_eq].
Qed.

Lemma add_page_consistent (p : Page.t) (st : Db.t) :
  keys_consistent st ->
  ~ In (Page.id p) (map Page.id (Db.pages st)) ->
  ~ In (Page.slug p) (map Page.slug (Db.pages st)) ->
  keys_consistent (Db.add_page p st).
Proof.
  intros (Hid & Hslug & Hbid & Hbtn & Hfk1 & Hfk2) Hfresh Hnew.
  unfold keys_consistent, Db.add_page. simpl. rewrite !map_app. simpl.
  repeat split; try assumption; try (now apply NoDup_snoc).
  intros b Hb. apply in_or_app. left. now apply Hfk1.
Qed.

Lemma add_block_consistent (b : ContentBlock.t) (st : Db.t) :
  keys_consistent st ->
  ~ In (ContentBlock.id b) (map ContentBlock.id (Db.content_blocks st)) ->
  In (ContentBlock.page_id b) (map Page.id (Db.pages st)) ->
  keys_consistent (Db.add_block b st).
Proof.
  intros (Hid & Hslug & Hbid & Hbtn & Hfk1 & Hfk2) Hfresh Hpage.
  unfold keys_consistent, Db.add_block. simpl. rewrite !map_app. simpl.
  repeat split; try assumption; try (now apply NoDup_snoc).
  - intros x Hx. apply in_app_or in Hx as [Hx | [<- | []]]; auto.
  - intros x Hx. apply in_or_app. left. now apply Hfk2.
Qed.

Lemma add_button_consistent (b : Button.t) (st : Db.t) :
  keys_consistent st ->
  ~ In (Button.id b) (map Button.id (Db.buttons st)) ->
  In (Button.content_block_id b)
     (map ContentBlock.id (Db.content_blocks st)) ->
  keys_consistent (Db.add_button b st).
Proof.
  intros (Hid & Hslug & Hbid & Hbtn & Hfk1 & Hfk2) Hfresh Hblock.
  unfold keys_consistent, Db.add_button. simpl. rewrite !map_app. simpl.
  repeat split; try assumption; try (now apply NoDup_snoc).
  intros x Hx. apply in_app_or in Hx as [Hx | [<- | []]]; auto.
Qed.

(** The rows an UPDATE by primary key rewrites, when keys are unique. *)
Lemma update_page_rows (p p' : Page.t) (pages : list Page.t) :
  NoDup (map Page.id pages) ->
  In p pages ->
  Page.id p' = Page.id p ->
  forall q, In q pages -> Page.id q = Page.id p' -> q = p.
Proof.
  intros Hnd Hp Hid q Hq Hsame. rewrite Hid in Hsame. clear Hid.
  induction pages as [|r rs IH]; [destruct Hp|].
  simpl in Hnd. inversion Hnd as [|? ? Hr Hrs]; subst.
  destruct Hp as [-> | Hp], Hq as [-> | Hq]; auto.
  - exfalso. apply Hr. rewrite <- Hsame. now apply in_map.
  - exfalso. apply Hr. rewrite Hsame. now apply in_map.
Qed.

Lemma update_page_keeps_columns (p' : Page.t) (pages : list Page.t) :
  (forall q, In q pages -> Page.id q = Page.id p' ->
             Page.slug q = Page.slug p') ->
  map Page.id (map (fun q => if Page.id q =? Page.id p' then p' else q)
                   pages)
  = map Page.id pages
  /\ map Page.slug (map (fun q => if Page.id q =? Page.id p' then p' else q)
                        pages)
     = map Page.slug pages.
Proof.
  induction pages as [|q qs IH]; intros Hrows; [split; reflexivity|].
  simpl. destruct IH as [IHid IHslug]; [intros r Hr; apply Hrows; now right|].
  rewrite IHid, IHslug.
  destruct (Z.eqb_spec (Page.id q) (Page.id p')) as [Heq|]; [|split;
                                                               reflexivity].
  rewrite (Hrows q (or_introl eq_refl) Heq), Heq. split; reflexivity.
Qed.

Lemma update_page_consistent (p p' : Page.t) (st : Db.t) :
  keys_consistent st ->
  In p (Db.pages st) ->
  Page.id p' = Page.id p ->
  Page.slug p' = Page.slug p ->
  keys_consistent (Db.update_page p' st).
Proof.
  intros (Hid & Hslug & Hbid & Hbtn & Hfk1 & Hfk2) Hp Hsame Hsl.
  destruct (update_page_keeps_columns p' (Db.pages st)) as [Hids Hslugs].
  { intros q Hq Hq'.
    now rewrite (update_page_rows p p' _ Hid Hp Hsame q Hq Hq'). }
  unfold keys_consistent, Db.update_page. cbn [Db.pages Db.content_blocks
                                                 Db.buttons].
  rewrite Hids, Hslugs. repeat split; assumption.
Qed.

(** The three ways one run of the content view can end. *)
Lemma update_page_content_view_shape (slug : string) (data : value)
      (now : Z) (st : Db.t) :
  (exists e, App.update_page_content_view slug data now st
             = (st, App.InternalServerError e))
  \/ (exists p p',
         Db.find_page st slug = Some p
         /\ Page.id p' = Page.id p /\ Page.slug p' = Page.slug p
         /\ App.update_page_content_view slug data now st
            = (Db.update_page p' st, App.JsonSuccess None))
  \/ (exists p',
         Db.find_page st slug = None
         /\ Page.id p' = Db.next_id (map Page.id (Db.pages st))
         /\ Page.slug p' = slug
         /\ App.update_page_content_view slug data now st
            = (Db.add_page p' st, App.JsonSuccess None)).
Proof.
  unfold App.update_page_content_view.
  destruct (Db.find_page st slug) as [p|] eqn:Hfind.
  - destruct (Page.get_content p) as [[| | | | |d]|e];
      destruct data as [| | | | |body]; cbn [Py.bind];
      try (left; eexists; reflexivity).
    right; left.
    exists p, (Page.set_updated_at
                 (Page.set_content
                    p (JDict (dict_set "html" (body_content body) d))) now).
    repeat split.
  - destruct data as [| | | | |body];
      cbn [Page.get_content Page.content_json Py.bind];
      try (left; eexists; reflexivity).
    right; right.
    exists (Page.set_updated_at
              (Page.set_content
                 (Page.mk (Db.next_id (map Page.id (Db.pages st))) slug
                          (App.humanize slug) None None now now)
                 (JDict (dict_set "html" (body_content body) [])))
              now).
    repeat split.
Qed.

Lemma render_keeps_db_state (dflt : string) (st : Db.t) (p : Page.t) :
  fst (App.render dflt st p) = st.
Proof.
  unfold App.render.
  destruct (Page.get_content p) as [[| | | | |]|]; reflexivity.
Qed.

(** X11.  Every route that writes keeps the constraints of the schema:
    primary keys stay unique, no two pages share a slug, every block
    belongs to a page and every button to a block.  This holds for the two
    page views, which create pages, and for the two write endpoints, for
    every caller and every input. *)
Theorem routes_keep_schema_constraints
        (cu : Auth.current_user_t) (slug : string) (data : value)
        (form : App.button_form) (now : Z) (dflt : string -> string)
        (st : Db.t) :
  keys_consistent st ->
  keys_consistent (fst (App.page dflt now slug st))
  /\ keys_consistent (fst (App.rules_detail dflt now slug st))
  /\ keys_consistent (fst (App.update_page_content cu slug data now st))
  /\ keys_consistent (fst (App.create_button cu form now st)).
Proof.
  intros Hst.
  assert (Hnew : forall s t c,
             Db.find_page st s = None ->
             keys_consistent (Db.add_page (App.new_page st s t c now) st)).
  { intros s t c Hnone. apply add_page_consistent; [exact Hst| |].
    - apply next_id_fresh.
    - now apply find_page_none_slug. }
  split; [|split; [|split]].
  - unfold App.page. destruct (Db.find_page st slug) eqn:Hfind;
      rewrite render_keeps_db_state; [exact Hst | now apply Hnew].
  - unfold App.rules_detail.
    destruct (Db.find_page st ("rules/" ++ slug)) eqn:Hfind;
      rewrite render_keeps_db_state; [exact Hst | now apply Hnew].
  - unfold App.update_page_content, App.login_required.
    destruct (Auth.is_authenticated cu); [|exact Hst].
    destruct (update_page_content_view_shape slug data now st)
      as [[e ->] | [(p & p' & Hfind & Hid & Hslug & ->)
                   | (p' & Hfind & Hid & Hslug & ->)]]; cbn [fst].
    + exact Hst.
    + apply find_page_some_in in Hfind as [Hin _].
      now apply (update_page_consistent p).
    + apply add_page_consistent; [exact Hst| |].
      * rewrite Hid. apply next_id_fresh.
      * rewrite Hslug. now apply find_page_none_slug.
  - unfold App.create_button, App.login_required.
    destruct (Auth.is_authenticated cu); [|exact Hst].
    unfold App.create_button_view.
    set (page_slug := App.form_get (App.f_page_slug form) "home").
    set (section_id := App.form_get (App.f_section_id form) "main-nav").
    assert (Hpage : exists pg st1,
               match Db.find_page st page_slug with
               | Some page => (page, st)
               | None =>
                   (App.new_page st page_slug (App.humanize page_slug) None
                                 now,
                    Db.add_page
                      (App.new_page st page_slug (App.humanize page_slug)
                                    None now) st)
               end = (pg, st1)
               /\ keys_consistent st1
               /\ In (Page.id pg) (map Page.id (Db.pages st1))).
    { destruct (Db.find_page st page_slug) as [pg|] eqn:Hfind.
      - exists pg, st. split; [reflexivity|]. split; [exact Hst|].
        apply find_page_some_in in Hfind as [Hin _]. now apply in_map.
      - eexists _, _. split; [reflexivity|]. split; [now apply Hnew|].
        simpl. rewrite map_app. apply in_or_app. right. now left. }
    destruct Hpage as (pg & st1 & -> & Hst1 & Hpg).
    destruct (Db.find_block st1 (Page.id pg) section_id) as [blk|] eqn:Hblk;
      cbn [fst].
    + apply add_button_consistent; [exact Hst1 | apply next_id_fresh|].
      unfold Db.find_block in Hblk. apply find_some in Hblk as [Hin _].
      cbn [Button.content_block_id]. now apply in_map.
    + apply add_button_consistent.
      * apply add_block_consistent; [exact Hst1 | apply next_id_fresh
                                     | exact Hpg].
      * apply next_id_fresh.
      * simpl. rewrite map_app. apply in_or_app. right. now left.
Qed.

Lemma seeded_db_consistent : keys_consistent seeded_db.
Proof.
  unfold keys_consistent, seeded_db. simpl.
  split; [repeat constructor; intros []|].
  split; [repeat constructor; intros []|].
  split; [repeat constructor; intros []|].
  split; [repeat (constructor; [simpl; intuition discriminate|]);
          constructor|].
  split.
  - intros blk [<- | []]. now left.
  - intros btn [<- | [<- | [<- | []]]]; now left.
Defined.

Lemma routes_keep_schema_constraints_witness :
  keys_consistent
    (fst (App.create_button (Auth.LoggedIn plain_user) default_form 10
                            seeded_db)).
Proof.
  exact (proj2 (proj2 (proj2 (routes_keep_schema_constraints
                                (Auth.LoggedIn plain_user) "home"
                                (put_body "<p>x</p>") default_form 10
                                no_default seeded_db
                                seeded_db_consistent)))).
Defined.
End Invariants.

(** ** The write endpoints and the permission check *)

Section WriteEndpoints.
Import Json Py.
Local Open Scope list_scope.

(** C2 (as amended).  Both write endpoints refuse a caller that is not
    authenticated before anything is written: the answer is the login
    manager's refusal and the database is left as it was.  For an
    authenticated caller they do not consult the grants: the request is
    handled by the body of the endpoint, which never looks at the caller,
    so the outcome is the same whatever grants the caller holds, and the
    write is accepted also for a caller whom [can_edit] refuses.  The
    button endpoint stores the new button and answers with its id; the
    content endpoint answers success and stores the document with [html]
    set whenever the body is a JSON object and the document stored for the
    slug is one (or the slug has no page yet). *)
Theorem write_endpoints_gate_on_authentication_only
        (cu cu' : Auth.current_user_t) (slug : string) (data : Json.value)
        (form : App.button_form) (now : Z) (st : Db.t) :
  (Auth.is_authenticated cu = false ->
   App.update_page_content cu slug data now st = (st, App.Unauthorized)
   /\ App.create_button cu form now st = (st, App.Unauthorized))
  /\ (Auth.is_authenticated cu = true ->
      App.update_page_content cu slug data now st
      = App.update_page_content_view slug data now st
      /\ App.create_button cu form now st
         = App.create_button_view form now st
      /\ (Auth.is_authenticated cu' = true ->
          App.update_page_content cu slug data now st
          = App.update_page_content cu' slug data now st
          /\ App.create_button cu form now st
             = App.create_button cu' form now st)
      /\ (exists b,
             Db.buttons (fst (App.create_button cu form now st))
             = Db.buttons st ++ [b]
             /\ snd (App.create_button cu form now st)
                = App.JsonSuccess (Some (Button.id b)))
      /\ (forall body d,
             data = JDict body ->
             stored_document st slug = Ok (JDict d) ->
             snd (App.update_page_content cu slug data now st)
             = App.JsonSuccess None
             /\ exists p',
                 Db.find_page
                   (fst (App.update_page_content cu slug data now st)) slug
                 = Some p'
                 /\ Page.content_json p'
                    = Some (dumps (JDict (dict_set "html" (body_content body)
                                                   d)))
                 /\ Page.updated_at p' = now)).
Proof.
  split.
  - unfold App.update_page_content, App.create_button, App.login_required.
    intros ->. split; reflexivity.
  - intros Hcu.
    assert (Hupdate : App.update_page_content cu slug data now st
                      = App.update_page_content_view slug data now st)
      by (unfold App.update_page_content, App.login_required;
          now rewrite Hcu).
    assert (Hcreate : App.create_button cu form now st
                      = App.create_button_view form now st)
      by (unfold App.create_button, App.login_required; now rewrite Hcu).
    split; [exact Hupdate|]. split; [exact Hcreate|].
    split; [|split].
    + unfold App.update_page_content, App.create_button, App.login_required.
      rewrite Hcu. intros ->. split; reflexivity.
    + rewrite Hcreate.
      destruct (create_button_view_shape form now st)
        as (sa & pg & blk & b & -> & Hbtn & _).
      exists b. cbn [fst snd Db.buttons Db.add_button].
      split; [now rewrite Hbtn | reflexivity].
    + intros body d -> Hdoc. rewrite Hupdate.
      unfold stored_document in Hdoc.
      unfold App.update_page_content_view. fold (body_content body).
      destruct (Db.find_page st slug) as [p|] eqn:Hfind.
      * rewrite Hdoc. cbn [Py.bind fst snd]. split; [reflexivity|].
        eexists. split.
        { apply find_page_after_update with (p := p);
            [exact Hfind | | reflexivity].
          now apply find_page_some_in in Hfind as [_ Hslug]. }
        split; reflexivity.
      * injection Hdoc as <-.
        cbn [Page.get_content Page.content_json Py.bind fst snd].
        split; [reflexivity|].
        eexists. split.
        { apply find_page_after_add; [reflexivity | exact Hfind]. }
        split; reflexivity.
Qed.

Lemma write_endpoints_gate_on_authentication_only_witness :
  App.update_page_content Auth.AnonymousUser "home" (put_body "<p>x</p>")
                          10 seeded_db
  = (seeded_db, App.Unauthorized)
  /\ Auth.can_edit (Auth.LoggedIn plain_user) "home" None = false
  /\ snd (App.update_page_content (Auth.LoggedIn plain_user) "home"
                                  (put_body "<p>x</p>") 10 seeded_db)
     = App.JsonSuccess None
  /\ (exists b,
         Db.buttons (fst (App.create_button (Auth.LoggedIn plain_user)
                                            default_form 10 seeded_db))
         = Db.buttons seeded_db ++ [b]
         /\ snd (App.create_button (Auth.LoggedIn plain_user) default_form
                                   10 seeded_db)
            = App.JsonSuccess (Some (Button.id b))).
Proof.
  split; [|split; [reflexivity|split]].
  - exact (proj1 (proj1 (write_endpoints_gate_on_authentication_only
                           Auth.AnonymousUser Auth.AnonymousUser "home"
                           (put_body "<p>x</p>") default_form 10 seeded_db)
                        eq_refl)).
  - destruct (proj2 (write_endpoints_gate_on_authentication_only
                       (Auth.LoggedIn plain_user) (Auth.LoggedIn admin)
                       "home" (put_body "<p>x</p>") default_form 10
                       seeded_db)
                    eq_refl)
      as (_ & _ & _ & _ & Haccept).
    exact (proj1 (Haccept _ [] eq_refl eq_refl)).
  - destruct (proj2 (write_endpoints_gate_on_authentication_only
                       (Auth.LoggedIn plain_user) (Auth.LoggedIn admin)
                       "home" (put_body "<p>x</p>") default_form 10
                       seeded_db)
                    eq_refl)
      as (_ & _ & _ & Hbutton & _).
    exact Hbutton.
Defined.

(** C2, counterexample.  An authenticated user with no grant at all is
    not authorized for [home], yet both endpoints accept the write and
    change the database. *)
Lemma write_accepted_without_any_grant :
  Auth.can_edit (Auth.LoggedIn plain_user) "home" None = false
  /\ snd (App.update_page_content (Auth.LoggedIn plain_user) "home"
                                  (put_body "<p>x</p>") 10 seeded_db)
     = App.JsonSuccess None
  /\ fst (App.update_page_content (Auth.LoggedIn plain_user) "home"
                                  (put_body "<p>x</p>") 10 seeded_db)
     <> seeded_db
  /\ snd (App.create_button (Auth.LoggedIn plain_user) default_form 10
                            seeded_db)
     = App.JsonSuccess (Some 4)
  /\ fst (App.create_button (Auth.LoggedIn plain_user) default_form 10
                            seeded_db)
     <> seeded_db.
Proof.
  split; [reflexivity|]. split; [vm_compute; reflexivity|].
  split; [vm_compute; discriminate|]. split; [reflexivity|].
  vm_compute; discriminate.
Qed.
End WriteEndpoints.

(** ** Listing the buttons of a page section *)

Section ButtonListing.
Import Json Py.
Local Open Scope list_scope.

Lemma insert_by_perm {A : Type} (key : A -> Z) (x : A) (l : list A) :
  Permutation (Query.insert_by key x l) (x :: l).
Proof.
  induction l as [|y l IH]; simpl; [reflexivity|].
  destruct (key x <=? key y); [reflexivity|].
  rewrite IH. apply perm_swap.
Qed.

Lemma order_by_perm {A : Type} (key : A -> Z) (l : list A) :
  Permutation (Query.order_by key l) l.
Proof.
  induction l as [|x l IH]; simpl; [constructor|].
  rewrite insert_by_perm. now constructor.
Qed.

Lemma insert_by_sorted {A : Type} (key : A -> Z) (x : A) (l : list A) :
  StronglySorted (fun a b => key a <= key b) l ->
  StronglySorted (fun a b => key a <= key b) (Query.insert_by key x l).
Proof.
  induction 1 as [|y l Hl IH Hy]; simpl.
  - repeat constructor.
  - destruct (Z.leb_spec (key x) (key y)) as [Hle | Hgt].
    + constructor; [now constructor|]. constructor; [exact Hle|].
      rewrite Forall_forall in *. intros z Hz. specialize (Hy z Hz). lia.
    + constructor; [exact IH|].
      rewrite Forall_forall in *. intros z Hz.
      apply (Permutation_in z (insert_by_perm key x l)) in Hz.
      destruct Hz as [<- | Hz]; [lia | now apply Hy].
Qed.

Lemma order_by_sorted {A : Type} (key : A -> Z) (l : list A) :
  StronglySorted (fun a b => key a <= key b) (Query.order_by key l).
Proof.
  induction l as [|x l IH]; simpl; [constructor|].
  now apply insert_by_sorted.
Qed.

Lemma insert_by_before_last {A : Type} (key : A -> Z) (x b : A)
      (l : list A) :
  key x <= key b ->
  Query.insert_by key x (l ++ [b]) = Query.insert_by key x l ++ [b].
Proof.
  intros Hle. induction l as [|y l IH]; simpl.
  - apply Z.leb_le in Hle. now rewrite Hle.
  - destruct (key x <=? key y); [reflexivity | now rewrite IH].
Qed.

Lemma order_by_append_largest {A : Type} (key : A -> Z) (l : list A)
      (b : A) :
  (forall x, In x l -> key x <= key b) ->
  Query.order_by key (l ++ [b]) = Query.order_by key l ++ [b].
Proof.
  induction l as [|x l IH]; intros Hall; [reflexivity|].
  simpl. rewrite IH by (intros y Hy; apply Hall; now right).
  apply insert_by_before_last. apply Hall. now left.
Qed.

(** X12.  [get_page_buttons] lists nothing when the page or its block for
    the section is missing; otherwise it lists the buttons of that block,
    each of them once and no other button, in ascending position. *)
Theorem page_buttons_listed_by_position
        (st : Db.t) (page_slug : string) (section_id : option string) :
  StronglySorted by_position
                 (Views.get_page_buttons st page_slug section_id)
  /\ match listed_block st page_slug section_id with
     | None => Views.get_page_buttons st page_slug section_id = []
     | Some blk =>
         Permutation
           (Views.get_page_buttons st page_slug section_id)
           (filter (fun b => Button.content_block_id b
                             =? ContentBlock.id blk)
                   (Db.buttons st))
     end.
Proof.
  unfold Views.get_page_buttons, listed_block.
  destruct (Db.find_page st page_slug) as [pg|];
    [|split; [constructor | reflexivity]].
  destruct (find _ (Db.content_blocks st)) as [blk|];
    [|split; [constructor | reflexivity]].
  split; [apply (order_by_sorted Button.position) | apply order_by_perm].
Qed.

Lemma next_position_above (st : Db.t) (bid x : Z) :
  In x (block_positions st bid) ->
  x < Db.or_zero (Db.max_position st bid) + 1.
Proof.
  unfold block_positions, Db.max_position. intros Hx.
  destruct (max_position_fold bid (Db.buttons st) None)
    as (_ & Hsome & Hnone). simpl in Hsome, Hnone.
  destruct (fold_left _ (Db.buttons st) None) as [m|] eqn:Hr.
  - destruct (Hsome m eq_refl) as (Hub & _). specialize (Hub x Hx).
    unfold Db.or_zero. destruct (Z.eqb_spec m 0); lia.
  - destruct (Hnone eq_refl) as [_ Hps]. rewrite Hps in Hx. destruct Hx.
Qed.

Lemma filter_block_positions (st : Db.t) (bid : Z) (x : Button.t) :
  In x (filter (fun b => Button.content_block_id b =? bid) (Db.buttons st)) ->
  In (Button.position x) (block_positions st bid).
Proof. intros Hx. unfold block_positions. now apply in_map. Qed.

Lemma no_button_of_new_block (st : Db.t) :
  keys_consistent st ->
  filter (fun b => Button.content_block_id b
                   =? Db.next_id (map ContentBlock.id (Db.content_blocks st)))
         (Db.buttons st) = [].
Proof.
  intros (_ & _ & _ & _ & _ & Hfk).
  induction (Db.buttons st) as [|b l IH]; [reflexivity|]. simpl.
  destruct (Z.eqb_spec (Button.content_block_id b)
                       (Db.next_id (map ContentBlock.id
                                        (Db.content_blocks st))))
    as [Heq|_].
  - exfalso. apply (next_id_fresh (map ContentBlock.id
                                       (Db.content_blocks st))).
    rewrite <- Heq. apply Hfk. now left.
  - apply IH. intros x Hx. apply Hfk. now right.
Qed.

Lemma no_block_of_new_page (st : Db.t) (sec : string) :
  keys_consistent st ->
  Db.find_block st (Db.next_id (map Page.id (Db.pages st))) sec = None.
Proof.
  intros (_ & _ & _ & _ & Hfk & _). unfold Db.find_block.
  destruct (find _ (Db.content_blocks st)) as [blk|] eqn:Hfind;
    [|reflexivity].
  apply find_some in Hfind as [Hin Hkey].
  apply andb_true_iff in Hkey as [Hpid _]. apply Z.eqb_eq in Hpid.
  exfalso. apply (next_id_fresh (map Page.id (Db.pages st))).
  rewrite <- Hpid. now apply Hfk.
Qed.

(** X13.  In a database that satisfies the schema constraints, a button
    created for a page and section shows up at the end of the listing of
    that page and section, behind the buttons listed before, whose order
    is unchanged. *)
Theorem created_button_is_listed_last
        (cu : Auth.current_user_t) (form : App.button_form) (now : Z)
        (st : Db.t) :
  Auth.is_authenticated cu = true ->
  keys_consistent st ->
  let slug := App.form_get (App.f_page_slug form) "home" in
  let sec := App.form_get (App.f_section_id form) "main-nav" in
  exists b,
    Db.buttons (fst (App.create_button cu form now st))
    = Db.buttons st ++ [b]
    /\ Views.get_page_buttons (fst (App.create_button cu form now st))
                              slug (Some sec)
       = Views.get_page_buttons st slug (Some sec) ++ [b].
Proof.
  intros Hcu Hst slug sec.
  unfold App.create_button, App.login_required. rewrite Hcu.
  unfold App.create_button_view. fold slug sec.
  assert (Hlist : forall (sa : Db.t) (pg : Page.t) (blk : ContentBlock.t)
                         (b : Button.t),
             Db.find_page sa slug = Some pg ->
             Db.find_block sa (Page.id pg) sec = Some blk ->
             Db.buttons sa = Db.buttons st ->
             Button.content_block_id b = ContentBlock.id blk ->
             Button.position b
             = Db.or_zero (Db.max_position st (ContentBlock.id blk)) + 1 ->
             Views.get_page_buttons (Db.add_button b sa) slug (Some sec)
             = Query.order_by Button.position
                 (filter (fun x => Button.content_block_id x
                                   =? ContentBlock.id blk)
                         (Db.buttons st)) ++ [b]).
  { intros sa pg blk b Hpg Hblk Hbtn Hcb Hpos.
    unfold Views.get_page_buttons.
    change (Db.find_page (Db.add_button b sa) slug)
      with (Db.find_page sa slug). rewrite Hpg.
    change (find _ (Db.content_blocks (Db.add_button b sa)))
      with (Db.find_block sa (Page.id pg) sec). rewrite Hblk.
    cbn [Db.buttons Db.add_button]. rewrite Hbtn, filter_app. simpl.
    rewrite Hcb, Z.eqb_refl.
    apply order_by_append_largest. intros x Hx.
    apply filter_block_positions, next_position_above in Hx.
    rewrite <- Hpos in Hx. lia. }
  destruct (Db.find_page st slug) as [pg|] eqn:Hpage.
  - destruct (Db.find_block st (Page.id pg) sec) as [blk|] eqn:Hblock.
    + eexists. split; [reflexivity|]. cbn [fst].
      erewrite (Hlist st pg blk _ Hpage Hblock);
        [| reflexivity | reflexivity | reflexivity].
      unfold Views.get_page_buttons. rewrite Hpage.
      change (find _ (Db.content_blocks st))
        with (Db.find_block st (Page.id pg) sec).
      now rewrite Hblock.
    + eexists. split; [reflexivity|]. cbn [fst].
      erewrite (Hlist (Db.add_block _ st) pg _ _ Hpage);
        [| now apply find_block_after_add | reflexivity | reflexivity
         | reflexivity].
      cbn [ContentBlock.id]. rewrite (no_button_of_new_block st Hst).
      unfold Views.get_page_buttons. rewrite Hpage.
      change (find _ (Db.content_blocks st))
        with (Db.find_block st (Page.id pg) sec).
      now rewrite Hblock.
  - set (pg := App.new_page st slug (App.humanize slug) None now).
    change (Db.find_block (Db.add_page pg st) (Page.id pg) sec)
      with (Db.find_block st (Db.next_id (map Page.id (Db.pages st))) sec).
    pose proof (no_block_of_new_page st sec Hst) as Hnone.
    rewrite Hnone.
    eexists. split; [reflexivity|]. cbn [fst].
    erewrite (Hlist (Db.add_block _ (Db.add_page pg st)) pg);
      [| change (Db.find_page (Db.add_page pg st) slug = Some pg);
         now apply find_page_after_add
       | apply find_block_after_add; [reflexivity | reflexivity | exact Hnone]
       | reflexivity | reflexivity | reflexivity].
    cbn [ContentBlock.id].
    change (Db.content_blocks (Db.add_page pg st))
      with (Db.content_blocks st).
    rewrite (no_button_of_new_block st Hst).
    unfold Views.get_page_buttons. now rewrite Hpage.
Qed.

Lemma created_button_is_listed_last_witness :
  exists b,
    Views.get_page_buttons
      (fst (App.create_button (Auth.LoggedIn plain_user) default_form 10
                              seeded_db))
      "home" (Some "main-nav"%string)
    = [nav_button 1 3; nav_button 3 4; nav_button 2 5; b]
    /\ Button.position b = 6.
Proof.
  destruct (created_button_is_listed_last
              (Auth.LoggedIn plain_user) default_form 10 seeded_db
              eq_refl seeded_db_consistent)
    as (b & Hb & Hlist).
  cbv in Hb. injection Hb as <-.
  eexists. split; [exact Hlist | reflexivity].
Defined.

(** X14.  [create_button] never gives a block two buttons with the same
    position: if the positions within every block are pairwise distinct
    before the call, they are after it. *)
Theorem button_positions_stay_distinct
        (cu : Auth.current_user_t) (form : App.button_form) (now : Z)
        (st : Db.t) :
  (forall bid, NoDup (block_positions st bid)) ->
  forall bid,
    NoDup (block_positions (fst (App.create_button cu form now st)) bid).
Proof.
  intros Hdistinct bid.
  unfold App.create_button, App.login_required.
  destruct (Auth.is_authenticated cu); [|apply Hdistinct].
  destruct (create_button_view_shape form now st)
    as (sa & pg & blk & b & -> & Hbtn & _ & _ & _ & _ & Hcb & Hpos).
  cbn [fst]. unfold block_positions. cbn [Db.buttons Db.add_button].
  rewrite Hbtn, filter_app, map_app. simpl.
  destruct (Z.eqb_spec (Button.content_block_id b) bid) as [Hbid|_];
    simpl; [|rewrite List.app_nil_r; apply Hdistinct].
  apply NoDup_snoc; [apply Hdistinct|].
  intros Hin. change (In (Button.position b) (block_positions st bid)) in Hin.
  apply next_position_above in Hin. rewrite <- Hbid, Hcb, <- Hpos in Hin.
  lia.
Qed.

Lemma button_positions_stay_distinct_witness :
  NoDup (block_positions
           (fst (App.create_button (Auth.LoggedIn plain_user) default_form 10
                                   seeded_db)) 1).
Proof.
  apply (button_positions_stay_distinct
           (Auth.LoggedIn plain_user) default_form 10 seeded_db).
  intros bid. unfold block_positions.
  replace (filter (fun b => Button.content_block_id b =? bid)
                  (Db.buttons seeded_db))
    with (if 1 =? bid then Db.buttons seeded_db else [])
    by (cbn -[Z.eqb]; destruct (1 =? bid); reflexivity).
  destruct (1 =? bid); simpl;
    repeat (constructor; [simpl; intuition discriminate|]); constructor.
Defined.
End ButtonListing.

(** ** The content endpoint and the other pages *)

Section OtherPages.
Import Json Py.
Local Open Scope list_scope.

Lemma find_page_update_other (p' : Page.t) (slug' : string)
      (pages : list Page.t) :
  (forall q, In q pages -> Page.id q = Page.id p' ->
             Page.slug q = Page.slug p') ->
  Page.slug p' <> slug' ->
  find (fun q => String.eqb (Page.slug q) slug')
       (map (fun q => if Page.id q =? Page.id p' then p' else q) pages)
  = find (fun q => String.eqb (Page.slug q) slug') pages.
Proof.
  intros Hrows Hother.
  induction pages as [|q qs IH]; [reflexivity|]. simpl.
  rewrite IH by (intros r Hr; apply Hrows; now right).
  destruct (Z.eqb_spec (Page.id q) (Page.id p')) as [Hid|_]; [|reflexivity].
  rewrite (Hrows q (or_introl eq_refl) Hid).
  apply String.eqb_neq in Hother. now rewrite Hother.
Qed.

(** X15.  The content endpoint touches one page only: when page ids are
    unique, a request for one slug leaves the page found for every other
    slug as it was, and it never changes a content block or a button. *)
Theorem content_update_leaves_other_pages
        (cu : Auth.current_user_t) (slug other : string) (data : value)
        (now : Z) (st : Db.t) :
  NoDup (map Page.id (Db.pages st)) ->
  other <> slug ->
  Db.find_page (fst (App.update_page_content cu slug data now st)) other
  = Db.find_page st other
  /\ Db.content_blocks (fst (App.update_page_content cu slug data now st))
     = Db.content_blocks st
  /\ Db.buttons (fst (App.update_page_content cu slug data now st))
     = Db.buttons st.
Proof.
  intros Hids Hother.
  unfold App.update_page_content, App.login_required.
  destruct (Auth.is_authenticated cu); [|repeat split].
  destruct (update_page_content_view_shape slug data now st)
    as [(e & ->) | [(p & p' & Hfind & Hid & Hslug & ->)
                   | (p' & Hfind & Hid & Hslug & ->)]];
    cbn [fst]; [repeat split | |].
  - split; [|split; reflexivity].
    apply find_page_some_in in Hfind as [Hin Hp].
    unfold Db.find_page, Db.update_page. cbn [Db.pages].
    apply find_page_update_other.
    + intros q Hq Hsame.
      rewrite (update_page_rows p p' (Db.pages st) Hids Hin Hid q Hq Hsame).
      now symmetry.
    + rewrite Hslug, Hp. intros ->. now apply Hother.
  - split; [|split; reflexivity].
    unfold Db.find_page, Db.add_page. cbn [Db.pages].
    rewrite find_snoc. destruct (find _ (Db.pages st)); [reflexivity|].
    rewrite Hslug.
    destruct (String.eqb_spec slug other) as [->|_];
      [now contradiction Hother | reflexivity].
Qed.

Lemma content_update_leaves_other_pages_witness :
  Db.find_page (fst (App.update_page_content (Auth.LoggedIn plain_user)
                       "rules/x" (put_body "<p>x</p>") 9 seeded_db))
               "home"
  = Some home_page.
Proof.
  destruct (content_update_leaves_other_pages
              (Auth.LoggedIn plain_user) "rules/x" "home"
              (put_body "<p>x</p>") 9 seeded_db) as (H & _ & _).
  - repeat constructor. intros [].
  - discriminate.
  - rewrite H. reflexivity.
Defined.

(** X16.  A page is created at most once by its view: viewing a slug a
    second time finds the page of the first view and adds nothing, whatever
    the two times and whatever the stored pages. *)
Theorem page_view_creates_once
        (dflt dflt' : string -> string) (now now' : Z) (slug : string)
        (st : Db.t) :
  fst (App.page dflt' now' slug (fst (App.page dflt now slug st)))
  = fst (App.page dflt now slug st)
  /\ fst (App.rules_detail dflt' now' slug
            (fst (App.rules_detail dflt now slug st)))
     = fst (App.rules_detail dflt now slug st).
Proof.
  split.
  - unfold App.page. cbv zeta.
    destruct (Db.find_page st slug) as [p|] eqn:Hfind.
    + rewrite (render_keeps_db (dflt slug) st p), Hfind.
      apply render_keeps_db.
    + rewrite (render_keeps_db (dflt slug)).
      rewrite (find_page_after_add
                 st (App.new_page st slug (App.humanize slug) None now)
                 slug eq_refl Hfind).
      apply render_keeps_db.
  - unfold App.rules_detail. cbv zeta.
    destruct (Db.find_page st ("rules/" ++ slug)) as [p|] eqn:Hfind.
    + rewrite (render_keeps_db (dflt slug) st p), Hfind.
      apply render_keeps_db.
    + rewrite (render_keeps_db (dflt slug)).
      rewrite (find_page_after_add
                 st (App.new_page st ("rules/" ++ slug) (App.humanize slug)
                                  None now)
                 ("rules/" ++ slug) eq_refl Hfind).
      apply render_keeps_db.
Qed.
End OtherPages.

(** ** The review listing and the team page *)

Section Reviews.
Local Open Scope list_scope.

Lemma StronglySorted_weaken {A : Type} (R S : A -> A -> Prop) (l : list A) :
  (forall a b, R a b -> S a b) ->
  StronglySorted R l -> StronglySorted S l.
Proof.
  intros HRS. induction 1 as [|x l Hl IH Hx]; constructor; [exact IH|].
  rewrite Forall_forall in *. intros y Hy. apply HRS. now apply Hx.
Qed.

Lemma order_by_desc_sorted {A : Type} (key : A -> Z) (l : list A) :
  StronglySorted (fun a b => key b <= key a) (Query.order_by_desc key l).
Proof.
  unfold Query.order_by_desc.
  apply (StronglySorted_weaken (fun a b => - key a <= - key b)).
  - intros a b. lia.
  - apply (order_by_sorted (fun x => - key x)).
Qed.

Lemma order_by_desc_perm {A : Type} (key : A -> Z) (l : list A) :
  Permutation (Query.order_by_desc key l) l.
Proof. apply order_by_perm. Qed.

Lemma firstn_sorted {A : Type} (R : A -> A -> Prop) (n : nat) (l : list A) :
  StronglySorted R l -> StronglySorted R (firstn n l).
Proof.
  intros Hl. revert n.
  induction Hl as [|x l Hl IH Hx]; intros [|n]; simpl; try constructor.
  - apply IH.
  - rewrite Forall_forall in *. intros y Hy. apply Hx.
    rewrite <- (firstn_skipn n l). apply in_or_app. now left.
Qed.

Lemma sorted_firstn_skipn {A : Type} (R : A -> A -> Prop) (n : nat)
      (l : list A) :
  StronglySorted R l ->
  forall x y, In x (firstn n l) -> In y (skipn n l) -> R x y.
Proof.
  intros Hl. revert n.
  induction Hl as [|z l Hl IH Hz]; intros [|n] x y; simpl;
    try contradiction.
  intros [<- | Hx] Hy.
  - rewrite Forall_forall in Hz. apply Hz.
    rewrite <- (firstn_skipn n l). apply in_or_app. now right.
  - now apply (IH n).
Qed.

Lemma limit_of_sorted {A : Type} (key : A -> Z) (n : nat) (l : list A) :
  let result := Query.limit n (Query.order_by_desc key l) in
  length result = Nat.min n (length l)
  /\ StronglySorted (fun a b => key b <= key a) result
  /\ (forall r, In r result -> In r l)
  /\ (forall r, In r l ->
                In r result \/ forall x, In x result -> key r <= key x).
Proof.
  unfold Query.limit. cbv zeta.
  pose proof (order_by_desc_sorted key l) as Hsorted.
  pose proof (order_by_desc_perm key l) as Hperm.
  split; [|split; [|split]].
  - rewrite length_firstn. now rewrite (Permutation_length Hperm).
  - now apply firstn_sorted.
  - intros r Hr. apply (Permutation_in r Hperm).
    rewrite <- (firstn_skipn n (Query.order_by_desc key l)).
    apply in_or_app. now left.
  - intros r Hr. apply (Permutation_in r (Permutation_sym Hperm)) in Hr.
    rewrite <- (firstn_skipn n (Query.order_by_desc key l)) in Hr.
    apply in_app_or in Hr as [Hr | Hr]; [now left | right].
    intros x Hx. exact (sorted_firstn_skipn _ n _ Hsorted x r Hx Hr).
Qed.

Lemma reviews_candidates (table : list ReplayReview.t) (gamemode : string) :
  (if String.eqb gamemode EmptyString then table
   else filter (fun r => Db.option_string_eqb (ReplayReview.gamemode r)
                                              (Some gamemode)) table)
  = filter (matches_gamemode gamemode) table.
Proof.
  unfold matches_gamemode.
  destruct (String.eqb gamemode EmptyString); simpl; [|reflexivity].
  induction table as [|r l IH]; simpl; [reflexivity | now rewrite <- IH].
Qed.

(** X17.  The query of the reviews endpoint returns the ten newest of the
    reviews that match: never more than ten, newest first, only stored
    reviews whose gamemode equals the parameter when one is given, and
    every matching review that is left out is at most as new as each one
    returned.  Without a parameter every review matches; a review without
    a gamemode matches no parameter. *)
Theorem reviews_query_ten_newest_matching
        (table : list ReplayReview.t) (gamemode : string) :
  let result := Views.reviews_query table gamemode in
  length result
  = Nat.min 10 (length (filter (matches_gamemode gamemode) table))
  /\ StronglySorted newest_first result
  /\ (forall r, In r result ->
                In r table /\ matches_gamemode gamemode r = true)
  /\ (forall r, In r table -> matches_gamemode gamemode r = true ->
                In r result
                \/ forall x, In x result ->
                             ReplayReview.published_at r
                             <= ReplayReview.published_at x).
Proof.
  unfold Views.reviews_query. rewrite reviews_candidates. cbv zeta.
  destruct (limit_of_sorted ReplayReview.published_at 10
                            (filter (matches_gamemode gamemode) table))
    as (Hlen & Hsorted & Hin & Htop).
  split; [exact Hlen|]. split; [exact Hsorted|]. split.
  - intros r Hr. apply filter_In. now apply Hin.
  - intros r Hr Hmatch. apply Htop. apply filter_In. now split.
Qed.

Lemma fold_left_cards (card : ReplayReview.t -> string)
      (l : list ReplayReview.t) (acc : string) :
  fold_left (fun html review => (html ++ card review)%string) l acc
  = (acc ++ fold_left (fun html review => (html ++ card review)%string)
                      l EmptyString)%string.
Proof.
  revert acc. induction l as [|r l IH]; intros acc; simpl.
  - clear. induction acc as [|c acc IH]; simpl; [reflexivity|].
    now rewrite <- IH.
  - rewrite IH, (IH (card r)).
    clear. induction acc as [|c acc IH]; simpl; [reflexivity|].
    now rewrite IH.
Qed.

Lemma review_card_head (strftime : Z -> string) (review : ReplayReview.t) :
  exists tail,
    Views.review_card strftime review = String "010"%char tail.
Proof.
  unfold Views.review_card, Views.nl. cbn [String.concat append].
  eexists. reflexivity.
Qed.

(** X18.  The reviews endpoint answers with the placeholder paragraph
    exactly when its query returns no review; otherwise the answer starts
    with the card of the newest one.  The [filter] parameter is read and
    never used: the answer does not depend on it. *)
Theorem reviews_placeholder_only_when_empty
        (strftime : Z -> string) (table : list ReplayReview.t)
        (gamemode time_filter : option string) :
  (Views.reviews strftime table gamemode time_filter = Views.no_reviews_found
   <-> Views.reviews_query table (App.form_get gamemode EmptyString) = [])
  /\ (forall r l,
         Views.reviews_query table (App.form_get gamemode EmptyString)
         = r :: l ->
         exists rest,
           Views.reviews strftime table gamemode time_filter
           = (Views.review_card strftime r ++ rest)%string)
  /\ Views.reviews strftime table gamemode time_filter
     = Views.reviews strftime table gamemode None.
Proof.
  split; [|split; [|reflexivity]].
  - unfold Views.reviews. cbv zeta.
    destruct (Views.reviews_query table (App.form_get gamemode EmptyString))
      as [|r l]; [split; reflexivity|].
    cbn [fold_left]. rewrite fold_left_cards. cbn [append].
    destruct (review_card_head strftime r) as (tail & ->).
    cbn [append String.eqb]. split; [|discriminate].
    unfold Views.no_reviews_found. cbn [String.concat append].
    discriminate.
  - intros r l Hq. unfold Views.reviews. cbv zeta. rewrite Hq.
    cbn [fold_left]. rewrite fold_left_cards. cbn [append].
    match goal with
    | |- context [String.eqb ?html EmptyString] =>
        assert (Hhtml : String.eqb html EmptyString = false)
          by (destruct (review_card_head strftime r) as (tail & ->);
              reflexivity);
        rewrite Hhtml
    end.
    eexists. reflexivity.
Qed.

(** X19.  The team page answers 404 exactly when no team has the slug.
    Otherwise it shows a stored team with that slug, the members of that
    team, each once and in ascending position, the radar charts filed
    under that team, and replay reviews only for the slug [trainer]: there
    the ten newest of all reviews, whatever their gamemode, newest
    first. *)
Theorem team_detail_shows_one_team
        (teams : list Team.t) (members : list TeamMember.t)
        (charts : list RadarChart.t) (review_table : list ReplayReview.t)
        (slug : string) :
  match Views.team_detail teams members charts review_table slug with
  | Views.NotFound => forall t, In t teams -> Team.slug t <> slug
  | Views.TeamPage team ms cs rs =>
      In team teams /\ Team.slug team = slug
      /\ Permutation ms (filter (fun m => TeamMember.team_id m
                                          =? Team.id team) members)
      /\ StronglySorted (fun a b => TeamMember.position a
                                    <= TeamMember.position b) ms
      /\ (forall c, In c cs <->
                    In c charts
                    /\ RadarChart.team_id c = Some (Team.id team))
      /\ (slug <> "trainer"%string -> rs = [])
      /\ (slug = "trainer"%string ->
          length rs = Nat.min 10 (length review_table)
          /\ StronglySorted newest_first rs
          /\ (forall r, In r rs -> In r review_table)
          /\ (forall r, In r review_table ->
                        In r rs
                        \/ forall x, In x rs ->
                                     ReplayReview.published_at r
                                     <= ReplayReview.published_at x))
  end.
Proof.
  unfold Views.team_detail.
  destruct (find _ teams) as [team|] eqn:Hfind.
  - apply find_some in Hfind as [Hin Hslug]. apply String.eqb_eq in Hslug.
    split; [exact Hin|]. split; [exact Hslug|].
    split; [apply order_by_perm|].
    split; [apply (order_by_sorted TeamMember.position)|].
    split; [|split].
    + intros c. rewrite filter_In. unfold Views.option_Z_eqb.
      destruct (RadarChart.team_id c) as [x|].
      * rewrite Z.eqb_eq. split; intros [Hc Hx]; split; try exact Hc.
        -- now rewrite Hx.
        -- now injection Hx.
      * split; intros [_ Hx]; discriminate.
    + intros Hother. apply String.eqb_neq in Hother. now rewrite Hother.
    + intros ->. cbn [String.eqb Ascii.eqb Bool.eqb].
      destruct (limit_of_sorted ReplayReview.published_at 10 review_table)
        as (Hlen & Hsorted & Hsub & Htop).
      split; [exact Hlen|]. split; [exact Hsorted|].
      split; [exact Hsub | exact Htop].
  - intros t Ht Hslug. pose proof (find_none _ _ Hfind t Ht) as Hno.
    simpl in Hno. apply String.eqb_neq in Hno. now apply Hno.
Qed.
End Reviews.
